(** * The Streamlit text-to-image front-end: credential lookup and retry loop

    A shallow embedding of [app.py]: the token lookup [get_hf_token] with the
    start-up check that follows it, the payload construction and the
    retry loop of [call_hf_text2image], and the size selector of the page;
    then the seed field, the prompt with its fixed suffix and the block
    under the button.

    Python dictionaries are finite maps ([gmap]); the two effects of the
    retry loop, [requests.post] and [time.sleep], act on an explicit world
    that holds the scripted answers of the remote service and the log of
    what the client did; a call ends in a value or in a raised exception. *)

From Stdlib Require Import ZArith QArith Qminmax Lqa String Ascii List Lia.
From stdpp Require Import base option gmap strings list pretty.

Set Warnings "-register-all".

Local Open Scope string_scope.
Local Open Scope Z_scope.

(** ** Python values that the code handles *)

(** A Python [float].  Finite doubles are rationals; the code only compares
    them with the integers 3 and 30 (Python compares [int] with [float]
    exactly) and never computes with them. *)
Inductive pyfloat : Type :=
| FFinite (q : Q)
| FPosInf
| FNegInf
| FNaN.

(** What [r.json()] returns: the decoded body.  Python's decoder maps JSON
    [true]/[false] to [bool], a number without fraction or exponent to
    [int], any other number (and the literals NaN and Infinity, which it
    accepts) to [float], and an object to [dict]. *)
Inductive json : Type :=
| JNull
| JBool (b : bool)
| JInt (z : Z)
| JFloat (f : pyfloat)
| JStr (s : string)
| JList (l : list json)
| JDict (d : gmap string json).

(** The exceptions that can leave the functions modelled here. *)
Inductive exn : Type :=
| RuntimeError (msg : string)
| TypeError
| ValueError
| OverflowError
| ConnectionError.

(** ** Credential lookup *)

Module Credential.

Definition KEY : string := "HF_TOKEN".

(** [st.secrets] as the script finds it.  Streamlit reads the secrets
    file at the first access: when no [secrets.toml] is found (or the one
    found cannot be read), every access, the membership test included,
    raises Streamlit's own exception; otherwise the store is the mapping
    the file holds. *)
Inductive secrets_store : Type :=
| NoSecretsFile
| SecretsFile (entries : gmap string string).

(** How a call of [get_hf_token] ends: with the string it returns, or
    with the exception of the secret store, which the function does not
    catch. *)
Inductive lookup : Type :=
| Returned (token : string)
| SecretsNotFound.

(** [get_hf_token]: [st.secrets] and [os.environ] are the two sources.
    The first test is membership ([in]), which is where a missing secrets
    file raises; the second is truthiness of the value [os.getenv]
    returned ([None] or a string). *)
Definition get_hf_token (secrets : secrets_store)
    (environ : gmap string string) : lookup :=
  match secrets with
  | NoSecretsFile => SecretsNotFound
  | SecretsFile entries =>
      match entries !! KEY with
      | Some v => Returned v
      | None =>
          match environ !! KEY with
          | Some env => if bool_decide (env = "") then Returned "" else Returned env
          | None => Returned ""
          end
      end
  end.

(** What module start-up does with the token: the page goes on with
    [HF_TOKEN] bound, or [st.error] shows a message and [st.stop()] halts
    the script, or the exception of the lookup, caught nowhere, ends the
    script. *)
Inductive startup : Type :=
| Ready (HF_TOKEN : string)
| Stopped (shown : string)
| Unhandled.

Definition missing_token_message : string :=
  "HF_TOKEN が見つかりません。`.streamlit/secrets.toml` か環境変数 `HF_TOKEN` を設定してください。".

Definition resolve (secrets : secrets_store) (environ : gmap string string)
    : startup :=
  match get_hf_token secrets environ with
  | SecretsNotFound => Unhandled
  | Returned HF_TOKEN =>
      if bool_decide (HF_TOKEN = "") then Stopped missing_token_message
      else Ready HF_TOKEN
  end.

End Credential.

(** ** The inference client *)

Module Client.

Definition bytes : Type := list Byte.byte.

(** The observations the code makes of a [requests.Response]:
    [r.status_code], [r.headers] (header names in lower case, as the
    case-insensitive dictionary of the library compares them),
    [r.content], the outcome of [r.json()] ([None] when it raises) and
    [r.text]. *)
Record Response : Type := {
  status_code : Z;
  headers : gmap string string;
  content : bytes;
  json_result : option json;
  text : string
}.

(** One scripted outcome of [requests.post]: an answer, or an exception
    of the transport itself. *)
Inductive outcome : Type :=
| Replies (r : Response)
| Fails (e : exn).

Inductive event : Type :=
| Posted (url : string) (hdrs : gmap string string)
         (body : gmap string json) (timeout : Z)
| Slept (seconds : json).

(** The world outside the client: what the service will answer to the
    calls still to come, and what the client has done so far. *)
Record World : Type := {
  script : list outcome;
  log : list event
}.

(** *** State and exception monad *)

Inductive result (A : Type) : Type :=
| Ok (a : A)
| Raise (e : exn).
Arguments Ok {A} a.
Arguments Raise {A} e.

Definition M (A : Type) : Type := World -> result A * World.

Definition ret {A} (a : A) : M A := fun w => (Ok a, w).
Definition raise {A} (e : exn) : M A := fun w => (Raise e, w).
Definition bind {A B} (m : M A) (k : A -> M B) : M B :=
  fun w => match m w with
           | (Ok a, w') => k a w'
           | (Raise e, w') => (Raise e, w')
           end.
Definition lift {A} (r : result A) : M A := fun w => (r, w).

Notation "x <- m ;; k" := (bind m (fun x => k))
  (at level 100, m at next level, right associativity).
Notation "m ;;; k" := (bind m (fun _ => k))
  (at level 100, right associativity).

(** *** The two library calls with an effect *)

(** [requests.post]: the call is logged and consumes the next scripted
    outcome; a script that has run dry stands for a service that cannot
    be reached. *)
Definition requests_post (url : string) (hdrs : gmap string string)
    (body : gmap string json) (timeout : Z) : M Response :=
  fun w =>
    let log' := (log w ++ [Posted url hdrs body timeout])%list in
    match script w with
    | Replies r :: rest => (Ok r, {| script := rest; log := log' |})
    | Fails e :: rest => (Raise e, {| script := rest; log := log' |})
    | [] => (Raise ConnectionError, {| script := []; log := log' |})
    end.

(** [time.sleep]: a number is required; a negative one or NaN is a
    [ValueError], an infinite one does not fit the clock. *)
Definition time_sleep (seconds : json) : M unit :=
  fun w =>
    let slept := (Ok tt, {| script := script w; log := (log w ++ [Slept seconds])%list |}) in
    match seconds with
    | JInt z => if z <? 0 then (Raise ValueError, w) else slept
    | JBool _ => slept
    | JFloat (FFinite q) =>
        if Qle_bool 0 q then slept else (Raise ValueError, w)
    | JFloat FPosInf => (Raise OverflowError, w)
    | JFloat FNegInf => (Raise ValueError, w)
    | JFloat FNaN => (Raise ValueError, w)
    | _ => (Raise TypeError, w)
    end.

(** *** Comparisons of an [int] with a decoded value *)

(** [n > v] for an [int] n: defined against [int], [bool] (an [int] in
    Python) and [float]; against anything else both [int.__gt__] and the
    reflected method decline and Python raises [TypeError]. *)
Definition int_gt (n : Z) (v : json) : result bool :=
  match v with
  | JInt z => Ok (z <? n)
  | JBool b => Ok ((if b then 1 else 0) <? n)
  | JFloat (FFinite q) => Ok (negb (Qle_bool (inject_Z n) q))
  | JFloat FPosInf => Ok false
  | JFloat FNegInf => Ok true
  | JFloat FNaN => Ok false
  | _ => Raise TypeError
  end.

(** [n < v] for an [int] n. *)
Definition int_lt (n : Z) (v : json) : result bool :=
  match v with
  | JInt z => Ok (n <? z)
  | JBool b => Ok (n <? (if b then 1 else 0))
  | JFloat (FFinite q) => Ok (negb (Qle_bool q (inject_Z n)))
  | JFloat FPosInf => Ok true
  | JFloat FNegInf => Ok false
  | JFloat FNaN => Ok false
  | _ => Raise TypeError
  end.

(** [max(v, n)] and [min(v, n)] with two positional arguments: the
    first one is kept unless the second compares strictly beyond it. *)
Definition py_max (v : json) (n : Z) : result json :=
  match int_gt n v with
  | Ok true => Ok (JInt n)
  | Ok false => Ok v
  | Raise e => Raise e
  end.

Definition py_min (v : json) (n : Z) : result json :=
  match int_lt n v with
  | Ok true => Ok (JInt n)
  | Ok false => Ok v
  | Raise e => Raise e
  end.

(** [min(max(est, 3), 30)], the argument of [time.sleep]. *)
Definition clamp (est : json) : result json :=
  match py_max est 3 with
  | Ok m => py_min m 30
  | Raise e => Raise e
  end.

(** *** Module constants *)

Definition MODEL_ID : string := "stabilityai/stable-diffusion-xl-base-1.0".

Definition API_URL : string :=
  "https://router.huggingface.co/hf-inference/models/" ++ MODEL_ID.

Definition HEADERS (HF_TOKEN : string) : gmap string string :=
  <["Content-Type" := "application/json"]>
    (<["Authorization" := "Bearer " ++ HF_TOKEN]> ∅).

Definition exhausted_message : string :=
  "モデルが混雑/読み込み中で失敗しました。時間をおいて再実行してください。".

(** *** Building the payload *)

(** The dictionary literal that opens [call_hf_text2image]. *)
Definition initial_payload (prompt : string) (steps : Z) (guidance : pyfloat)
    (width height : Z) : gmap string json :=
  <["options" := JDict (<["wait_for_model" := JBool true]> ∅)]>
    (<["parameters" :=
         JDict (<["height" := JInt height]>
                  (<["width" := JInt width]>
                     (<["guidance_scale" := JFloat guidance]>
                        (<["num_inference_steps" := JInt steps]> ∅))))]>
       (<["inputs" := JStr prompt]> ∅)).

(** [payload["parameters"][k] = v]: the inner dictionary is updated in
    place.  The last branch is what a payload without a parameters
    dictionary would meet; [initial_payload] always has one. *)
Definition set_parameter (k : string) (v : json) (payload : gmap string json)
    : gmap string json :=
  match payload !! "parameters" with
  | Some (JDict p) => <["parameters" := JDict (<[k := v]> p)]> payload
  | _ => payload
  end.

Definition build_payload (prompt negative_prompt : string) (steps : Z)
    (guidance : pyfloat) (width height : Z) (seed : option Z)
    : gmap string json :=
  let payload := initial_payload prompt steps guidance width height in
  let payload :=
    if bool_decide (negative_prompt = "") then payload
    else set_parameter "negative_prompt" (JStr negative_prompt) payload in
  match seed with
  | Some n => set_parameter "seed" (JInt n) payload
  | None => payload
  end.

(** The parameters group of a payload. *)
Definition parameters_of (payload : gmap string json) : gmap string json :=
  match payload !! "parameters" with
  | Some (JDict p) => p
  | _ => ∅
  end.

(** *** The retry loop *)

Section Loop.

(** [str()] of a decoded body, as the f-string of the error message
    applies it: Python's own formatting of dictionaries, lists and
    numbers, taken as given. *)
Variable py_str : json -> string.

(** The module-level token, resolved once at start-up. *)
Variable HF_TOKEN : string.

Definition ctype_of (r : Response) : string :=
  default "" (headers r !! "content-type").

(** The [try]/[except Exception] around [r.json()] and [j.get]: a body
    that does not decode, and a decoded body that is not a dictionary
    (it has no [get]), both end in the handler. *)
Definition estimate_of (r : Response) : json :=
  match json_result r with
  | Some (JDict j) => default (JInt 10) (j !! "estimated_time")
  | _ => JInt 10
  end.

(** The second [try]/[except]: the decoded body, else the raw text. *)
Definition err_of (r : Response) : string :=
  match json_result r with
  | Some j => py_str j
  | None => text r
  end.

Definition api_error_message (r : Response) : string :=
  "HF API error: status=" ++ pretty (status_code r)
    ++ ", content-type=" ++ ctype_of r
    ++ ", body=" ++ err_of r.

(** The [for attempt in range(...)] loop with the attempts still to
    run as its argument, and the [raise] after it. *)
Fixpoint attempts (payload : gmap string json) (remaining : nat) : M bytes :=
  match remaining with
  | O => raise (RuntimeError exhausted_message)
  | S remaining' =>
      r <- requests_post API_URL (HEADERS HF_TOKEN) payload 180 ;;
      let ctype := ctype_of r in
      if (status_code r =? 200) && String.prefix "image/" ctype then
        ret (content r)
      else if (status_code r =? 503) || (status_code r =? 504) then
        let est := estimate_of r in
        d <- lift (clamp est) ;;
        (time_sleep d ;;;
         attempts payload remaining')
      else
        raise (RuntimeError (api_error_message r))
  end.

(** [range(max_retries)] is empty for a count of zero or less. *)
Definition call_hf_text2image (prompt negative_prompt : string) (steps : Z)
    (guidance : pyfloat) (width height : Z) (seed : option Z)
    (max_retries : Z) : M bytes :=
  attempts
    (build_payload prompt negative_prompt steps guidance width height seed)
    (Z.to_nat max_retries).

End Loop.

End Client.

(** ** The size selector of the page *)

Module UI.

Definition size_options : list string := ["1024x1024"; "768x768"; "512x512"].

(** [st.selectbox] hands back the option the user picked; [choice] is
    its position in the list. *)
Definition selectbox (options : list string) (choice : nat) : option string :=
  options !! choice.

(** [s.split(sep)] for a separator of one character. *)
Fixpoint split (sep : ascii) (s : string) : list string :=
  match s with
  | EmptyString => [EmptyString]
  | String c rest =>
      if Ascii.eqb c sep then EmptyString :: split sep rest
      else match split sep rest with
           | piece :: pieces => String c piece :: pieces
           | [] => [String c EmptyString]
           end
  end.

Definition digit_value (c : ascii) : option Z :=
  let n := Z.of_N (N_of_ascii c) in
  if (48 <=? n) && (n <=? 57) then Some (n - 48) else None.

Fixpoint digits_value (acc : Z) (s : string) : option Z :=
  match s with
  | EmptyString => Some acc
  | String c rest =>
      match digit_value c with
      | Some d => digits_value (10 * acc + d) rest
      | None => None
      end
  end.

(** [int(s)] on a string of ASCII decimal digits, the only form the
    size options contain.  [None] covers the empty string, where Python
    raises [ValueError], and also the further forms Python reads
    (sign, surrounding blanks, underscores), which are left out. *)
Definition py_int (s : string) : option Z :=
  match s with
  | EmptyString => None
  | _ => digits_value 0 s
  end.

(** [w, h = map(int, size.split("x"))]: unpacking needs exactly two
    pieces. *)
Definition parse_size (size : string) : option (Z * Z) :=
  match split "x" size with
  | [a; b] =>
      match py_int a, py_int b with
      | Some w, Some h => Some (w, h)
      | _, _ => None
      end
  | _ => None
  end.

End UI.

(** ** The rest of the page: seed field, prompt and button *)

Module Page.

Import Client UI.

(** The text of the seed field, which the code inspects character by
    character, is modelled for code points below 256, one character of a
    Rocq string for each.  The other texts are only concatenated. *)
Definition code (c : ascii) : Z := Z.of_N (N_of_ascii c).

(** [c.isspace()]: the blanks of Python below 256. *)
Definition is_space (c : ascii) : bool :=
  let n := code c in
  ((9 <=? n) && (n <=? 13)) || ((28 <=? n) && (n <=? 32))
  || (n =? 133) || (n =? 160).

(** A decimal digit, the only digit [int] reads below 256. *)
Definition is_decimal (c : ascii) : bool :=
  let n := code c in (48 <=? n) && (n <=? 57).

(** [c.isdigit()]: the decimal digits and the superscripts one, two and
    three. *)
Definition is_digit (c : ascii) : bool :=
  let n := code c in
  is_decimal c || (n =? 178) || (n =? 179) || (n =? 185).

Fixpoint all_chars (p : ascii -> bool) (s : string) : bool :=
  match s with
  | EmptyString => true
  | String c rest => p c && all_chars p rest
  end.

Fixpoint lstrip (s : string) : string :=
  match s with
  | EmptyString => EmptyString
  | String c rest => if is_space c then lstrip rest else s
  end.

Fixpoint rstrip (s : string) : string :=
  match s with
  | EmptyString => EmptyString
  | String c rest =>
      match rstrip rest with
      | EmptyString => if is_space c then EmptyString else String c EmptyString
      | kept => String c kept
      end
  end.

(** [s.strip()]. *)
Definition strip (s : string) : string := rstrip (lstrip s).

(** [s.isdigit()]: at least one character, and digits only. *)
Definition isdigit (s : string) : bool :=
  match s with
  | EmptyString => false
  | _ => all_chars is_digit s
  end.

(** The blanks [int] skips at the ends of its argument: fewer than
    [strip] removes, the separators 28 to 31 are not among them. *)
Definition is_int_blank (c : ascii) : bool :=
  let n := code c in
  ((9 <=? n) && (n <=? 13)) || (n =? 32) || (n =? 133) || (n =? 160).

Fixpoint lstrip_with (blank : ascii -> bool) (s : string) : string :=
  match s with
  | EmptyString => EmptyString
  | String c rest => if blank c then lstrip_with blank rest else s
  end.

Fixpoint rstrip_with (blank : ascii -> bool) (s : string) : string :=
  match s with
  | EmptyString => EmptyString
  | String c rest =>
      match rstrip_with blank rest with
      | EmptyString => if blank c then EmptyString else String c EmptyString
      | kept => String c kept
      end
  end.

(** The argument of [int] without the blanks [int] skips. *)
Definition int_literal (s : string) : string :=
  rstrip_with is_int_blank (lstrip_with is_int_blank s).

(** [int(s)] for a text of blanks and digit characters, which is all the
    test in front of it lets through: the blanks [int] knows are skipped
    at both ends, and what is left has to be decimal digits, at least one
    and, with a limit on the digits of a literal in force
    ([max_str_digits], 0 for none), no more than the limit; anything else
    is a [ValueError]. *)
Definition int_of_digits (max_str_digits : nat) (s : string) : result Z :=
  let literal := int_literal s in
  match literal with
  | EmptyString => Raise ValueError
  | _ =>
      if all_chars is_decimal literal then
        if (0 <? max_str_digits)%nat
           && (max_str_digits <? String.length literal)%nat
        then Raise ValueError
        else match digits_value 0 literal with
             | Some n => Ok n
             | None => Raise ValueError
             end
      else Raise ValueError
  end.

(** [seed = int(seed_text) if seed_text.strip().isdigit() else None]:
    the test looks at the stripped text, [int] is given the text as
    typed. *)
Definition parse_seed (max_str_digits : nat) (seed_text : string)
    : result (option Z) :=
  if isdigit (strip seed_text) then
    match int_of_digits max_str_digits seed_text with
    | Ok n => Ok (Some n)
    | Raise e => Raise e
    end
  else Ok None.

(** The text of [MEIJI_BOOST] between its triple quotes. *)
Definition MEIJI_BOOST_literal : string :=
  "
Japan Meiji era (1868-1912), Meiji period, historical streetscape,
brick western-style architecture, gas lamps, rickshaw,
kimono and western clothing (yofuku), early modern Japan,
highly detailed, cinematic lighting
".

Definition MEIJI_BOOST : string := strip MEIJI_BOOST_literal.

(** [final_prompt = f"{user_prompt}, {MEIJI_BOOST}"]. *)
Definition final_prompt (user_prompt : string) : string :=
  user_prompt ++ ", " ++ MEIJI_BOOST.

(** *** The button *)

(** What the block under the button puts on the page. *)
Inductive widget (image : Type) : Type :=
| WImage (img : image) (caption : string)
| WDownload (label : string) (data : bytes) (file_name mime : string)
| WError (msg : string).
Arguments WImage {image} img caption.
Arguments WDownload {image} label data file_name mime.
Arguments WError {image} msg.

(** How a run of the script below the token check ends: with an
    exception that nothing catches, or with the widgets of the button
    block. *)
Inductive page_result (image : Type) : Type :=
| Crashed (e : exn)
| Rendered (widgets : list (widget image)).
Arguments Crashed {image} e.
Arguments Rendered {image} widgets.

Definition error_prefix : string := "画像生成エラー: ".

Definition download_label : string := "PNGをダウンロード".

Section Button.

(** [str()] of a decoded body and of an exception other than
    [RuntimeError], as Python formats them. *)
Variable py_str : json -> string.
Variable exn_str : exn -> string.

(** The image library: the type of a decoded image, [Image.open] on the
    bytes received and [image.save] to PNG, each of which may raise. *)
Variable image : Type.
Variable Image_open : bytes -> result image.
Variable save_png : image -> result bytes.

Variable HF_TOKEN : string.

(** [str(e)]: a [RuntimeError] made from one string prints as it. *)
Definition str_exn (e : exn) : string :=
  match e with
  | RuntimeError msg => msg
  | _ => exn_str e
  end.

(** The body of [if st.button(...)]: the call with a budget of four
    attempts, then the image and the download button; [except Exception]
    turns whatever was raised on the way into one error message.  The two
    widget calls themselves are taken not to raise. *)
Definition on_click (user_prompt negative : string) (steps : Z)
    (guidance : pyfloat) (w h : Z) (seed : option Z)
    : World -> list (widget image) * World :=
  fun world =>
    match call_hf_text2image py_str HF_TOKEN (final_prompt user_prompt)
            negative steps guidance w h seed 4 world with
    | (Ok img_bytes, world') =>
        match Image_open img_bytes with
        | Ok img =>
            let shown := WImage img ("Model: " ++ MODEL_ID) in
            match save_png img with
            | Ok data =>
                ([shown; WDownload download_label data "generated.png" "image/png"],
                 world')
            | Raise e => ([shown; WError (error_prefix ++ str_exn e)], world')
            end
        | Raise e => ([WError (error_prefix ++ str_exn e)], world')
        end
    | (Raise e, world') => ([WError (error_prefix ++ str_exn e)], world')
    end.

(** The script from the size selector on: the size and the seed are read
    outside any [try], so a [ValueError] there ends the run; the button
    block runs when the button was pressed. *)
Definition run_page (max_str_digits : nat) (user_prompt negative : string)
    (steps : Z) (guidance : pyfloat) (size seed_text : string)
    (clicked : bool) : World -> page_result image * World :=
  fun world =>
    match parse_size size with
    | None => (Crashed ValueError, world)
    | Some (w, h) =>
        match parse_seed max_str_digits seed_text with
        | Raise e => (Crashed e, world)
        | Ok seed =>
            if clicked then
              let '(widgets, world') :=
                on_click user_prompt negative steps guidance w h seed world in
              (Rendered widgets, world')
            else (Rendered [], world)
        end
    end.

End Button.

End Page.

(** ** Notions used to state the properties *)

Import Credential Client UI.

(** The event one attempt leaves in the log. *)
Definition post_event (HF_TOKEN : string) (payload : gmap string json) : event :=
  Posted API_URL (HEADERS HF_TOKEN) payload 180.

(** The world after one request: a scripted reply is consumed and the
    request is logged. *)
Definition after_post (HF_TOKEN : string) (payload : gmap string json)
    (w : World) (rest : list outcome) : World :=
  {| script := rest; log := (log w ++ [post_event HF_TOKEN payload])%list |}.

(** The world after one request and the sleep that follows it. *)
Definition after_sleep (HF_TOKEN : string) (payload : gmap string json)
    (w : World) (rest : list outcome) (d : json) : World :=
  {| script := rest;
     log := (log w ++ [post_event HF_TOKEN payload; Slept d])%list |}.

(** The test of the second branch of the loop. *)
Definition transient (r : Response) : bool :=
  (status_code r =? 503) || (status_code r =? 504).

(** The test of the first branch of the loop. *)
Definition image_reply (r : Response) : bool :=
  (status_code r =? 200) && String.prefix "image/" (ctype_of r).

(** The number of seconds a value stands for, when it is an [int], a
    [bool] or a finite [float]. *)
Definition seconds_of (v : json) : option Q :=
  match v with
  | JInt z => Some (inject_Z z)
  | JBool b => Some (if b then 1%Q else 0%Q)
  | JFloat (FFinite q) => Some q
  | _ => None
  end.

(** Decoded values that Python orders against an [int] and that leave
    the clamp as a length [time.sleep] takes: every number but NaN. *)
Definition usable_estimate (v : json) : bool :=
  match v with
  | JInt _ | JBool _ => true
  | JFloat (FFinite _) | JFloat FPosInf | JFloat FNegInf => true
  | _ => false
  end.

(** Decoded values that Python does not order against an [int]. *)
Definition unordered_with_int (v : json) : bool :=
  match v with
  | JNull | JStr _ | JList _ | JDict _ => true
  | _ => false
  end.

(** A decoded JSON number. *)
Definition json_number (v : json) : bool :=
  match v with
  | JInt _ | JFloat _ => true
  | _ => false
  end.

(** The length slept after a transient reply with a usable estimate. *)
Definition sleep_of (r : Response) : json :=
  match clamp (estimate_of r) with
  | Ok d => d
  | Raise _ => JNull
  end.

Definition is_post (e : event) : bool :=
  match e with Posted _ _ _ _ => true | Slept _ => false end.

Definition is_sleep (e : event) : bool :=
  match e with Slept _ => true | Posted _ _ _ _ => false end.

(** How many requests, and how many sleeps, a log records. *)
Definition posts (l : list event) : nat := length (List.filter is_post l).
Definition sleeps (l : list event) : nat := length (List.filter is_sleep l).

(** A reply that the loop answers with a sleep and a further attempt:
    status 503 or 504 with a usable estimate. *)
Definition retried (r : Response) : Prop :=
  transient r = true ∧ usable_estimate (estimate_of r) = true.

(** What a run of retried replies adds to the log: for each one the
    request and the sleep that follows it. *)
Definition retried_log (HF_TOKEN : string) (payload : gmap string json)
    (rs : list Response) : list event :=
  flat_map (fun r => [post_event HF_TOKEN payload; Slept (sleep_of r)]) rs.

(** *** Sample replies *)

Definition reply (status : Z) (ctype : option string) (body : bytes)
    (j : option json) (txt : string) : Response :=
  {| status_code := status;
     headers := match ctype with
                | Some c => <["content-type" := c]> ∅
                | None => ∅
                end;
     content := body;
     json_result := j;
     text := txt |}.

Definition warming_up (est : json) : Response :=
  reply 503 (Some "application/json") []
    (Some (JDict (<["estimated_time" := est]> ∅))) "".

Definition no_body_503 : Response := reply 503 None [] None "".

Definition png : bytes := [Byte.x89; Byte.x50; Byte.x4e; Byte.x47].

Definition image_png : Response := reply 200 (Some "image/png") png None "".

Definition plain_text_200 : Response :=
  reply 200 (Some "text/plain") [] None "Model too busy".

(** A stand-in for Python's formatting of a decoded body. *)
Definition sample_str (_ : json) : string := "<json>".

Definition fresh (s : list outcome) : World := {| script := s; log := [] |}.

(** A sample call, as the page issues it, and the payload it sends. *)
Definition sample_generate (max_retries : Z) : M bytes :=
  call_hf_text2image sample_str "hf_sample" "brick street" "blurry" 30
    (FFinite 7) 1024 1024 None max_retries.

Definition sample_post : event :=
  post_event "hf_sample"
    (build_payload "brick street" "blurry" 30 (FFinite 7) 1024 1024 None).

(** A sample page: the image library taken as the identity on bytes,
    exceptions printed by a fixed text. *)
Definition sample_exn_str (_ : exn) : string := "<exception>".

Definition sample_click : World -> list (Page.widget bytes) * World :=
  Page.on_click sample_str sample_exn_str bytes Ok Ok "hf_sample"
    "brick street" "blurry" 30 (FFinite 7) 1024 1024 None.

Definition sample_page (size seed_text : string) (clicked : bool)
    : World -> Page.page_result bytes * World :=
  Page.run_page sample_str sample_exn_str bytes Ok Ok "hf_sample" 4300
    "brick street" "blurry" 30 (FFinite 7) size seed_text clicked.

(** The request the sample page sends: the prompt carries the suffix. *)
Definition sample_post_page : event :=
  post_event "hf_sample"
    (build_payload (Page.final_prompt "brick street") "blurry" 30 (FFinite 7)
       1024 1024 None).

(** A seed text that [strip] cleans and [int] refuses: the separator
    U+001C in front of the digit five. *)
Definition separator_five : string := String "028" "5".

(** *** How a run of the loop ends *)

(** The seconds a log records as slept. *)
Definition seconds_slept (l : list event) : Q :=
  fold_right
    (fun e acc =>
       match e with
       | Slept d => (default 0 (seconds_of d) + acc)%Q
       | Posted _ _ _ _ => acc
       end)
    0%Q l.

(** The branches of the loop as a relation: [run_ends n w out] when the
    loop with [n] attempts left, started in world [w], can end in [out].
    One rule for the [raise] after the loop, one for each way an attempt
    leaves the loop, and one for the attempt that sleeps and goes on. *)
Inductive run_ends (py_str : json -> string) (HF_TOKEN : string)
    (payload : gmap string json)
    : nat -> World -> result bytes * World -> Prop :=
| ends_exhausted w :
    run_ends py_str HF_TOKEN payload 0 w
      (Raise (RuntimeError exhausted_message), w)
| ends_unreachable n w :
    script w = [] ->
    run_ends py_str HF_TOKEN payload (S n) w
      (Raise ConnectionError, after_post HF_TOKEN payload w [])
| ends_failed n w e rest :
    script w = Fails e :: rest ->
    run_ends py_str HF_TOKEN payload (S n) w
      (Raise e, after_post HF_TOKEN payload w rest)
| ends_image n w r rest :
    script w = Replies r :: rest ->
    image_reply r = true ->
    run_ends py_str HF_TOKEN payload (S n) w
      (Ok (content r), after_post HF_TOKEN payload w rest)
| ends_other n w r rest :
    script w = Replies r :: rest ->
    image_reply r = false ->
    transient r = false ->
    run_ends py_str HF_TOKEN payload (S n) w
      (Raise (RuntimeError (api_error_message py_str r)),
       after_post HF_TOKEN payload w rest)
| ends_unusable n w r rest e :
    script w = Replies r :: rest ->
    transient r = true ->
    usable_estimate (estimate_of r) = false ->
    e = TypeError \/ e = ValueError ->
    run_ends py_str HF_TOKEN payload (S n) w
      (Raise e, after_post HF_TOKEN payload w rest)
| ends_retry n w r rest d out :
    script w = Replies r :: rest ->
    retried r ->
    clamp (estimate_of r) = Ok d ->
    run_ends py_str HF_TOKEN payload n (after_sleep HF_TOKEN payload w rest d) out ->
    run_ends py_str HF_TOKEN payload (S n) w out.

(** What a run may add to the log: a request with the fixed address,
    headers, body and timeout, or a sleep of 3 to 30 seconds. *)
Definition event_ok (HF_TOKEN : string) (payload : gmap string json)
    (e : event) : Prop :=
  match e with
  | Posted _ _ _ _ => e = post_event HF_TOKEN payload
  | Slept d => exists q, seconds_of d = Some q /\ (3 <= q)%Q /\ (q <= 30)%Q
  end.

(** * Properties of the credential lookup *)

Lemma get_hf_token_secret entries environ v :
  entries !! KEY = Some v →
  get_hf_token (SecretsFile entries) environ = Returned v.
Proof. intros H. unfold get_hf_token. by rewrite H. Qed.

Lemma get_hf_token_environ entries environ :
  entries !! KEY = None →
  get_hf_token (SecretsFile entries) environ
  = Returned (default "" (environ !! KEY)).
Proof.
  intros H. unfold get_hf_token. rewrite H.
  destruct (environ !! KEY) as [env|]; [|done].
  simpl. by case_bool_decide; subst.
Qed.

Lemma resolve_ready secrets environ token :
  get_hf_token secrets environ = Returned token → token ≠ "" →
  resolve secrets environ = Ready token.
Proof.
  intros Htok Hne. unfold resolve. rewrite Htok.
  by rewrite bool_decide_eq_false_2.
Qed.

(** With a secrets file in place the secret store is asked before the
    environment: with a non-empty secret ["A"] and an environment value
    ["B"] the token is ["A"]; with no secret entry and a non-empty
    environment value the token is that value; with neither, start-up
    shows the missing-token message and stops the script. *)
Lemma resolve_order (entries environ : gmap string string) :
  (∀ a b, entries !! KEY = Some a → environ !! KEY = Some b → a ≠ "" →
          resolve (SecretsFile entries) environ = Ready a)
  ∧ (∀ b, entries !! KEY = None → environ !! KEY = Some b → b ≠ "" →
          resolve (SecretsFile entries) environ = Ready b)
  ∧ (entries !! KEY = None → environ !! KEY = None →
     resolve (SecretsFile entries) environ = Stopped missing_token_message).
Proof.
  split; [|split].
  - intros a b Hs _ Hne. apply resolve_ready; [|done].
    by apply get_hf_token_secret.
  - intros b Hs He Hne. apply resolve_ready; [|done].
    rewrite get_hf_token_environ by done. by rewrite He.
  - intros Hs He. unfold resolve.
    rewrite get_hf_token_environ by done. by rewrite He.
Qed.

Lemma resolve_order_witness :
  resolve (SecretsFile (<[KEY := "A"]> ∅)) (<[KEY := "B"]> ∅) = Ready "A"
  ∧ resolve (SecretsFile ∅) (<[KEY := "B"]> ∅) = Ready "B"
  ∧ resolve (SecretsFile ∅) ∅ = Stopped missing_token_message.
Proof.
  split; [|split].
  - apply (proj1 (resolve_order (<[KEY := "A"]> ∅) (<[KEY := "B"]> ∅)) "A" "B");
      [reflexivity | reflexivity | discriminate].
  - apply (proj1 (proj2 (resolve_order ∅ (<[KEY := "B"]> ∅))) "B");
      [reflexivity | reflexivity | discriminate].
  - apply (proj2 (proj2 (resolve_order ∅ ∅))); reflexivity.
Defined.

(** Without a secrets file the lookup ends at its first line, whatever
    the environment holds. *)
Lemma no_secrets_file_unhandled environ :
  get_hf_token NoSecretsFile environ = SecretsNotFound
  ∧ resolve NoSecretsFile environ = Unhandled.
Proof. done. Qed.

(** Claim C5.  With no secrets file and the environment variable set to
    ["B"], the lookup does not return ["B"]: the membership test on the
    secret store raises, the environment is never read, and start-up ends
    in that exception.  With no secrets file and no environment variable
    start-up ends in the same exception, not in the missing-token message. *)
Theorem environ_unread_without_secrets_file :
  get_hf_token NoSecretsFile (<[KEY := "B"]> ∅) = SecretsNotFound
  ∧ resolve NoSecretsFile (<[KEY := "B"]> ∅) = Unhandled
  ∧ resolve NoSecretsFile (<[KEY := "B"]> ∅) ≠ Ready "B"
  ∧ resolve NoSecretsFile ∅ = Unhandled
  ∧ resolve NoSecretsFile ∅ ≠ Stopped missing_token_message.
Proof. repeat (split; [done|]). done. Qed.

(** Claim C6.  With the secret-store entry present but empty and the
    environment variable set to ["B"], the lookup returns the empty secret
    without asking the environment, and start-up stops the script: the
    environment value is not returned. *)
Theorem empty_secret_hides_environ :
  get_hf_token (SecretsFile (<[KEY := ""]> ∅)) (<[KEY := "B"]> ∅) = Returned ""
  ∧ resolve (SecretsFile (<[KEY := ""]> ∅)) (<[KEY := "B"]> ∅)
    = Stopped missing_token_message
  ∧ resolve (SecretsFile (<[KEY := ""]> ∅)) (<[KEY := "B"]> ∅) ≠ Ready "B".
Proof. split; [|split]; [reflexivity | reflexivity | discriminate]. Qed.

(** The same for every environment: an empty secret always stops
    start-up. *)
Lemma empty_secret_stops entries environ :
  entries !! KEY = Some "" →
  resolve (SecretsFile entries) environ = Stopped missing_token_message.
Proof.
  intros H. unfold resolve. by rewrite (get_hf_token_secret _ _ _ H).
Qed.

(** * Properties of the payload *)

Lemma parameters_of_initial prompt steps guidance width height :
  parameters_of (initial_payload prompt steps guidance width height)
  = <["height" := JInt height]>
      (<["width" := JInt width]>
         (<["guidance_scale" := JFloat guidance]>
            (<["num_inference_steps" := JInt steps]> ∅))).
Proof. reflexivity. Qed.

Lemma parameters_of_set k v payload p :
  payload !! "parameters" = Some (JDict p) →
  parameters_of (set_parameter k v payload) = <[k := v]> p.
Proof.
  intros H. unfold set_parameter, parameters_of. rewrite H.
  by rewrite lookup_insert_eq.
Qed.

Lemma set_parameter_lookup k v payload p :
  payload !! "parameters" = Some (JDict p) →
  set_parameter k v payload !! "parameters" = Some (JDict (<[k := v]> p)).
Proof.
  intros H. unfold set_parameter. rewrite H. by rewrite lookup_insert_eq.
Qed.

(** Claim C7.  The parameters group has no [negative_prompt] key exactly
    when the negative prompt is empty and otherwise maps it to the input
    string; it has no [seed] key exactly when the seed is [None] and
    otherwise maps it to the supplied integer. *)
Theorem optional_parameters prompt negative_prompt steps guidance width height seed :
  let parameters :=
    parameters_of
      (build_payload prompt negative_prompt steps guidance width height seed) in
  parameters !! "negative_prompt"
    = (if bool_decide (negative_prompt = "") then None
       else Some (JStr negative_prompt))
  ∧ parameters !! "seed" = JInt <$> seed.
Proof.
  cbn zeta. unfold build_payload.
  pose proof (parameters_of_initial prompt steps guidance width height) as H0.
  assert (initial_payload prompt steps guidance width height !! "parameters"
          = Some (JDict (parameters_of
                           (initial_payload prompt steps guidance width height))))
    as Hp by reflexivity.
  case_bool_decide as Hneg; destruct seed as [n|]; cbn [fmap option_fmap option_map].
  - rewrite (parameters_of_set _ _ _ _ Hp), H0. by simplify_map_eq.
  - rewrite H0. by simplify_map_eq.
  - rewrite (parameters_of_set _ _ _ _ (set_parameter_lookup _ _ _ _ Hp)), H0.
    by simplify_map_eq.
  - rewrite (parameters_of_set _ _ _ _ Hp), H0. by simplify_map_eq.
Qed.

(** * Properties of the size selector *)

(** Claim C8.  Whatever option of the selector the user picks, the parsed
    width and height are equal and are one of 512, 768 and 1024. *)
Theorem sizes_square (choice : nat) (size : string) :
  selectbox size_options choice = Some size →
  ∃ w, parse_size size = Some (w, w) ∧ (w = 512 ∨ w = 768 ∨ w = 1024).
Proof.
  unfold selectbox, size_options. intros H.
  destruct choice as [|[|[|choice]]]; simpl in H; inversion H; subst.
  - exists 1024. split; [reflexivity | auto].
  - exists 768. split; [reflexivity | auto].
  - exists 512. split; [reflexivity | auto].
Qed.

Lemma sizes_square_witness :
  ∃ w, parse_size "768x768" = Some (w, w) ∧ (w = 512 ∨ w = 768 ∨ w = 1024).
Proof. apply (sizes_square 1 "768x768"). reflexivity. Defined.

(** * Properties of the clamp *)

Lemma clamp_int z : clamp (JInt z) = Ok (JInt (Z.min (Z.max z 3) 30)).
Proof.
  unfold clamp, py_max, py_min, int_gt, int_lt.
  destruct (Z.ltb_spec z 3).
  - replace (Z.max z 3) with 3 by lia. reflexivity.
  - replace (Z.max z 3) with z by lia.
    destruct (Z.ltb_spec 30 z); do 2 f_equal; lia.
Qed.

Lemma clamp_bool b : clamp (JBool b) = Ok (JInt 3).
Proof. by destruct b. Qed.

Lemma clamp_finite q :
  clamp (JFloat (FFinite q))
  = Ok (if Qle_bool 3 q
        then if Qle_bool q 30 then JFloat (FFinite q) else JInt 30
        else JInt 3).
Proof.
  unfold clamp, py_max, py_min, int_gt, int_lt.
  change (inject_Z 3) with 3%Q. change (inject_Z 30) with 30%Q.
  destruct (Qle_bool 3 q); [|reflexivity].
  cbn [negb]. by destruct (Qle_bool q 30).
Qed.

Lemma clamp_unordered v : unordered_with_int v = true → clamp v = Raise TypeError.
Proof. by destruct v as [| | |[]| | |]. Qed.

(** The clamp keeps NaN, which [time.sleep] then refuses. *)
Lemma clamp_nan w :
  clamp (JFloat FNaN) = Ok (JFloat FNaN)
  ∧ time_sleep (JFloat FNaN) w = (Raise ValueError, w).
Proof. done. Qed.

(** On a usable estimate the clamp returns a length that [time.sleep]
    accepts. *)
Lemma clamp_usable est :
  usable_estimate est = true →
  ∃ d, clamp est = Ok d
       ∧ ∀ w, time_sleep d w
              = (Ok tt, {| script := script w; log := (log w ++ [Slept d])%list |}).
Proof.
  destruct est as [|b|z|[q| | |]| | |]; try discriminate; intros _.
  - exists (JInt 3). by rewrite clamp_bool.
  - exists (JInt (Z.min (Z.max z 3) 30)). split; [apply clamp_int|].
    intros w. unfold time_sleep.
    destruct (Z.ltb_spec (Z.min (Z.max z 3) 30) 0); [lia | done].
  - rewrite clamp_finite. destruct (Qle_bool 3 q) eqn:E3.
    + destruct (Qle_bool q 30); [|by exists (JInt 30)].
      exists (JFloat (FFinite q)). split; [done|]. intros w.
      unfold time_sleep.
      assert (Qle_bool 0 q = true) as ->; [|done].
      apply Qle_bool_iff. apply Qle_bool_iff in E3.
      eapply Qle_trans; [|exact E3]. discriminate.
    + by exists (JInt 3).
  - by exists (JInt 30).
  - by exists (JInt 3).
Qed.

(** The mathematical clamp, by cases. *)
Lemma Qclamp_low (q : Q) : (q <= 3 → Qmin (Qmax q 3) 30 == 3)%Q.
Proof.
  intros H. rewrite (Q.max_r _ _ H). by rewrite Q.min_l.
Qed.

Lemma Qclamp_mid (q : Q) : (3 <= q → q <= 30 → Qmin (Qmax q 3) 30 == q)%Q.
Proof.
  intros H3 H30. rewrite (Q.max_l _ _ H3). by rewrite Q.min_l.
Qed.

Lemma Qclamp_high (q : Q) : (30 <= q → Qmin (Qmax q 3) 30 == 30)%Q.
Proof.
  intros H. rewrite Q.max_l.
  - by rewrite Q.min_r.
  - eapply Qle_trans; [|exact H]. discriminate.
Qed.

Lemma Qle_bool_false (x y : Q) : Qle_bool x y = false → (y <= x)%Q.
Proof.
  intros E. destruct (Qlt_le_dec y x) as [Hlt|Hle]; [by apply Qlt_le_weak|].
  apply Qle_bool_iff in Hle. congruence.
Qed.

(** Property X5.  The length slept is the estimate brought into the
    range from 3 to 30: for an estimate worth [q] seconds, the clamp is
    worth [Qmin (Qmax q 3) 30]. *)
Lemma clamp_value est q :
  seconds_of est = Some q →
  ∃ d q', clamp est = Ok d ∧ seconds_of d = Some q'
          ∧ (q' == Qmin (Qmax q 3) 30)%Q.
Proof.
  destruct est as [|b|z|[q0| | |]| | |]; try discriminate; intros [= <-].
  - exists (JInt 3), 3%Q. rewrite clamp_bool. split; [done|]. split; [done|].
    symmetry. apply Qclamp_low. by destruct b.
  - exists (JInt (Z.min (Z.max z 3) 30)), (inject_Z (Z.min (Z.max z 3) 30)).
    split; [apply clamp_int|]. split; [done|]. symmetry.
    destruct (Z.le_gt_cases z 3) as [Hz|Hz].
    + replace (Z.min (Z.max z 3) 30) with 3 by lia.
      apply Qclamp_low. change 3%Q with (inject_Z 3). by rewrite <- Zle_Qle.
    + destruct (Z.le_gt_cases z 30) as [Hz'|Hz'].
      * replace (Z.min (Z.max z 3) 30) with z by lia.
        apply Qclamp_mid.
        -- change 3%Q with (inject_Z 3). rewrite <- Zle_Qle. lia.
        -- change 30%Q with (inject_Z 30). by rewrite <- Zle_Qle.
      * replace (Z.min (Z.max z 3) 30) with 30 by lia.
        apply Qclamp_high. change 30%Q with (inject_Z 30).
        rewrite <- Zle_Qle. lia.
  - rewrite clamp_finite. destruct (Qle_bool 3 q0) eqn:E3.
    + apply Qle_bool_iff in E3.
      destruct (Qle_bool q0 30) eqn:E30.
      * apply Qle_bool_iff in E30. exists (JFloat (FFinite q0)), q0.
        split; [done|]. split; [done|]. symmetry. by apply Qclamp_mid.
      * exists (JInt 30), 30%Q. split; [done|]. split; [done|].
        symmetry. apply Qclamp_high. by apply Qle_bool_false.
    + exists (JInt 3), 3%Q. split; [done|]. split; [done|].
      symmetry. apply Qclamp_low. by apply Qle_bool_false.
Qed.

(** * Properties of the retry loop *)

Section RetryLoop.

Variable py_str : json -> string.
Variable HF_TOKEN : string.
Variable payload : gmap string json.

Let loop := attempts py_str HF_TOKEN payload.
Let posted := post_event HF_TOKEN payload.

Let world_posted := after_post HF_TOKEN payload.
Let world_slept := after_sleep HF_TOKEN payload.

Lemma transient_not_image r : transient r = true → image_reply r = false.
Proof.
  unfold transient, image_reply. intros H.
  destruct (status_code r =? 200) eqn:E; [|done].
  apply Z.eqb_eq in E. rewrite E in H. discriminate.
Qed.

Lemma loop_image n w r rest :
  script w = Replies r :: rest → image_reply r = true →
  loop (S n) w = (Ok (content r), world_posted w rest).
Proof.
  intros Hs Hi. unfold loop, image_reply in *. cbn [attempts].
  unfold bind at 1. unfold requests_post. rewrite Hs.
  cbn zeta. by rewrite Hi.
Qed.

Lemma loop_other n w r rest :
  script w = Replies r :: rest → image_reply r = false → transient r = false →
  loop (S n) w = (Raise (RuntimeError (api_error_message py_str r)), world_posted w rest).
Proof.
  intros Hs Hi Ht. unfold loop, image_reply, transient in *. cbn [attempts].
  unfold bind at 1. unfold requests_post. rewrite Hs.
  cbn zeta. by rewrite Hi, Ht.
Qed.

Lemma loop_transient_raise n w r rest e :
  script w = Replies r :: rest → transient r = true →
  clamp (estimate_of r) = Raise e →
  loop (S n) w = (Raise e, world_posted w rest).
Proof.
  intros Hs Ht Hc. pose proof (transient_not_image r Ht) as Hi.
  unfold loop, image_reply, transient in *. cbn [attempts].
  unfold bind at 1. unfold requests_post. rewrite Hs.
  cbn zeta. rewrite Hi, Ht. unfold bind, lift. by rewrite Hc.
Qed.

Lemma loop_transient_sleep n w r rest d :
  script w = Replies r :: rest → transient r = true →
  clamp (estimate_of r) = Ok d →
  time_sleep d (world_posted w rest) = (Ok tt, world_slept w rest d) →
  loop (S n) w = loop n (world_slept w rest d).
Proof.
  intros Hs Ht Hc Hsl. pose proof (transient_not_image r Ht) as Hi.
  unfold loop, image_reply, transient in *. cbn [attempts].
  unfold bind at 1. unfold requests_post. rewrite Hs.
  cbn zeta. rewrite Hi, Ht. unfold bind at 1. unfold lift. rewrite Hc.
  unfold bind at 1.
  change {| script := rest;
            log := (log w ++ [Posted API_URL (HEADERS HF_TOKEN) payload 180])%list |}
    with (world_posted w rest).
  by rewrite Hsl.
Qed.

(** A transient reply whose estimate is not usable ends the call: the
    replies in [retried] are exactly those after which the loop goes on. *)
Lemma loop_transient_unusable n w r rest :
  script w = Replies r :: rest → transient r = true →
  usable_estimate (estimate_of r) = false →
  ∃ e, loop (S n) w = (Raise e, world_posted w rest).
Proof.
  intros Hs Ht Hu. pose proof (transient_not_image r Ht) as Hi.
  destruct (clamp (estimate_of r)) as [d|e] eqn:Hc.
  - destruct (estimate_of r) as [| | |[]| | |] eqn:He; try discriminate.
    exists ValueError.
    unfold loop, image_reply, transient in *. cbn [attempts].
    unfold bind at 1. unfold requests_post. rewrite Hs.
    cbn zeta. rewrite Hi, Ht, He. reflexivity.
  - exists e. by apply (loop_transient_raise n w r rest e).
Qed.

(** A run of retried replies is worked off one attempt at a time. *)
Lemma loop_retried rs : ∀ n w rest,
  script w = (map Replies rs ++ rest)%list →
  Forall retried rs →
  loop (length rs + n) w
  = loop n {| script := rest;
              log := (log w ++ retried_log HF_TOKEN payload rs)%list |}.
Proof.
  induction rs as [|r rs IH]; intros n w rest Hs Hrs.
  - destruct w as [s l]. simpl in *. subst s.
    unfold retried_log. simpl. by rewrite app_nil_r.
  - inversion Hrs as [|? ? [Ht Hu] Hrs']; subst.
    destruct (clamp_usable _ Hu) as (d & Hc & Hsl).
    cbn [length Nat.add].
    rewrite (loop_transient_sleep _ w r (map Replies rs ++ rest)%list d Hs Ht Hc).
    2:{ rewrite Hsl. unfold world_posted, world_slept, after_post, after_sleep. cbn [script log]. by rewrite <- app_assoc. }
    rewrite (IH n _ rest); [|done|done].
    unfold world_slept, after_sleep, retried_log. cbn [script log flat_map].
    unfold sleep_of at 2. rewrite Hc.
    by rewrite <- app_assoc.
Qed.

Lemma posts_retried_log rs : posts (retried_log HF_TOKEN payload rs) = length rs.
Proof.
  unfold posts, retried_log. induction rs as [|r rs IH]; [done|].
  simpl. by rewrite IH.
Qed.

Lemma sleeps_retried_log rs : sleeps (retried_log HF_TOKEN payload rs) = length rs.
Proof.
  unfold sleeps, retried_log. induction rs as [|r rs IH]; [done|].
  simpl. by rewrite IH.
Qed.

End RetryLoop.

(** * Properties of [call_hf_text2image] *)

Section Generate.

Variable py_str : json -> string.
Variable HF_TOKEN : string.
Variables prompt negative_prompt : string.
Variables steps width height : Z.
Variable guidance : pyfloat.
Variable seed : option Z.

Let generate :=
  call_hf_text2image py_str HF_TOKEN prompt negative_prompt steps guidance
    width height seed.
Let payload :=
  build_payload prompt negative_prompt steps guidance width height seed.
Let posted := post_event HF_TOKEN payload.

(** A call whose first replies are all retried reaches the attempt that
    follows them, with a request and a sleep logged for each. *)
Lemma generate_reaches rs n max_retries w rest :
  script w = (map Replies rs ++ rest)%list →
  Forall retried rs →
  (length rs + n)%nat = Z.to_nat max_retries →
  generate max_retries w
  = attempts py_str HF_TOKEN payload n
      {| script := rest; log := (log w ++ retried_log HF_TOKEN payload rs)%list |}.
Proof.
  intros Hs Hrs Hn. unfold generate, call_hf_text2image. rewrite <- Hn.
  by apply loop_retried.
Qed.

Lemma generate_reaches_next rs r max_retries w rest :
  script w = (map Replies rs ++ Replies r :: rest)%list →
  Forall retried rs →
  Z.of_nat (length rs) < max_retries →
  ∃ n, generate max_retries w
       = attempts py_str HF_TOKEN payload (S n)
           {| script := Replies r :: rest;
              log := (log w ++ retried_log HF_TOKEN payload rs)%list |}.
Proof.
  intros Hs Hrs Hlt.
  exists (Z.to_nat max_retries - S (length rs))%nat.
  apply generate_reaches; [done | done | lia].
Qed.

Lemma generate_clamp_raises rs r max_retries w rest e :
  script w = (map Replies rs ++ Replies r :: rest)%list →
  Forall retried rs →
  Z.of_nat (length rs) < max_retries →
  transient r = true →
  clamp (estimate_of r) = Raise e →
  generate max_retries w
  = (Raise e,
     {| script := rest;
        log := (log w ++ retried_log HF_TOKEN payload rs ++ [posted])%list |}).
Proof.
  intros Hs Hrs Hlt Ht Hc.
  destruct (generate_reaches_next rs r max_retries w rest Hs Hrs Hlt) as [n ->].
  rewrite (loop_transient_raise py_str HF_TOKEN payload n _ r rest e); [|done..].
  unfold after_post. cbn [script log]. by rewrite <- app_assoc.
Qed.

(** Property X6.  A retried reply costs one attempt of the budget: the
    request and a sleep of the clamped estimate are logged, and the loop
    goes on with one attempt less. *)
Lemma retried_reply_sleeps_clamped rs r max_retries w rest :
  script w = (map Replies rs ++ Replies r :: rest)%list →
  Forall retried rs →
  Z.of_nat (length rs) < max_retries →
  retried r →
  ∃ n d, (length rs + S n)%nat = Z.to_nat max_retries
         ∧ clamp (estimate_of r) = Ok d
         ∧ generate max_retries w
           = attempts py_str HF_TOKEN payload n
               {| script := rest;
                  log := (log w ++ retried_log HF_TOKEN payload rs
                            ++ [posted; Slept d])%list |}.
Proof.
  intros Hs Hrs Hlt Hr.
  exists (Z.to_nat max_retries - S (length rs))%nat.
  destruct (clamp_usable _ (proj2 Hr)) as (d & Hc & _).
  exists d. split; [lia|]. split; [done|].
  rewrite (generate_reaches (rs ++ [r])
             (Z.to_nat max_retries - S (length rs)) max_retries w rest).
  - unfold retried_log. rewrite flat_map_app. cbn [flat_map].
    unfold sleep_of. rewrite Hc. by rewrite app_nil_r.
  - rewrite map_app. by rewrite <- app_assoc.
  - apply Forall_app. split; [done|]. by constructor.
  - rewrite length_app. simpl. lia.
Qed.

(** Claim C4.  When an attempt is answered with status 200 and a content
    type that begins with [image/], the call returns the body of that
    answer at once: the request of this attempt is the last entry of the
    log, no sleep follows it, and the replies scripted after it are left
    untouched. *)
Theorem image_returned_at_once rs r max_retries w rest :
  script w = (map Replies rs ++ Replies r :: rest)%list →
  Forall retried rs →
  Z.of_nat (length rs) < max_retries →
  status_code r = 200 →
  String.prefix "image/" (ctype_of r) = true →
  generate max_retries w
  = (Ok (content r),
     {| script := rest;
        log := (log w ++ retried_log HF_TOKEN payload rs ++ [posted])%list |}).
Proof.
  intros Hs Hrs Hlt H200 Himg.
  destruct (generate_reaches_next rs r max_retries w rest Hs Hrs Hlt) as [n ->].
  rewrite (loop_image py_str HF_TOKEN payload n _ r rest); [|done|].
  - unfold after_post. cbn [script log]. by rewrite <- app_assoc.
  - unfold image_reply. by rewrite H200, Himg.
Qed.

(** Claim C3.  When an attempt is answered with anything that is neither
    status 200 with an image content type nor status 503 or 504, the call
    raises at once the error whose message holds the status code, the
    content type and the body, decoded if it decodes and as raw text
    otherwise; the request of this attempt is the last entry of the log,
    so there is no sleep and no further request. *)
Theorem other_reply_raises_at_once rs r max_retries w rest :
  script w = (map Replies rs ++ Replies r :: rest)%list →
  Forall retried rs →
  Z.of_nat (length rs) < max_retries →
  ¬ (status_code r = 200 ∧ String.prefix "image/" (ctype_of r) = true) →
  status_code r ≠ 503 →
  status_code r ≠ 504 →
  generate max_retries w
  = (Raise (RuntimeError
              ("HF API error: status=" ++ pretty (status_code r)
                 ++ ", content-type=" ++ default "" (headers r !! "content-type")
                 ++ ", body=" ++ match json_result r with
                                 | Some j => py_str j
                                 | None => text r
                                 end)),
     {| script := rest;
        log := (log w ++ retried_log HF_TOKEN payload rs ++ [posted])%list |}).
Proof.
  intros Hs Hrs Hlt Hn200 Hn503 Hn504.
  destruct (generate_reaches_next rs r max_retries w rest Hs Hrs Hlt) as [n ->].
  rewrite (loop_other py_str HF_TOKEN payload n _ r rest); [|done|..].
  - unfold after_post. cbn [script log]. by rewrite <- app_assoc.
  - unfold image_reply. apply andb_false_iff.
    destruct (Z.eqb_spec (status_code r) 200) as [E|]; [|by left].
    right. destruct (String.prefix "image/" (ctype_of r)); [|done].
    exfalso. by apply Hn200.
  - unfold transient. apply orb_false_iff. split; by apply Z.eqb_neq.
Qed.

(** Claim C9, amended.  When an attempt is answered with status 503 or
    504 and a body that decodes to a dictionary whose [estimated_time] is
    a string, null, a list or a dictionary, the call raises [TypeError]
    out of the clamp: the request is logged, nothing is slept and no
    further request is made. *)
Theorem unordered_estimate_raises_type_error rs r max_retries w rest j v :
  script w = (map Replies rs ++ Replies r :: rest)%list →
  Forall retried rs →
  Z.of_nat (length rs) < max_retries →
  status_code r = 503 ∨ status_code r = 504 →
  json_result r = Some (JDict j) →
  j !! "estimated_time" = Some v →
  unordered_with_int v = true →
  generate max_retries w
  = (Raise TypeError,
     {| script := rest;
        log := (log w ++ retried_log HF_TOKEN payload rs ++ [posted])%list |}).
Proof.
  intros Hs Hrs Hlt Hst Hj Hv Hun.
  apply (generate_clamp_raises rs r); [done | done | done | |].
  - unfold transient. destruct Hst as [-> | ->]; reflexivity.
  - unfold estimate_of. rewrite Hj, Hv. by apply clamp_unordered.
Qed.

(** Claim C10.  With a retry count of zero or less the loop body does not
    run: the call raises the exhausted-retries error and leaves the world
    as it found it, with no request and no sleep. *)
Theorem no_budget_no_attempt max_retries w :
  max_retries ≤ 0 →
  generate max_retries w = (Raise (RuntimeError exhausted_message), w).
Proof.
  intros Hle. unfold generate, call_hf_text2image.
  by replace (Z.to_nat max_retries) with 0%nat by lia.
Qed.

(** Property X7.  When every attempt of the budget is answered with a
    retried reply, the call ends in the exhausted-retries error after as
    many requests and as many sleeps as the budget. *)
Lemma retried_replies_exhaust rs max_retries w rest :
  script w = (map Replies rs ++ rest)%list →
  Forall retried rs →
  Z.of_nat (length rs) = max_retries →
  ∃ w', generate max_retries w = (Raise (RuntimeError exhausted_message), w')
        ∧ script w' = rest
        ∧ log w' = (log w ++ retried_log HF_TOKEN payload rs)%list
        ∧ posts (retried_log HF_TOKEN payload rs) = Z.to_nat max_retries
        ∧ sleeps (retried_log HF_TOKEN payload rs) = Z.to_nat max_retries.
Proof.
  intros Hs Hrs Hn. eexists. split.
  - apply (generate_reaches rs 0 max_retries w rest); [done | done | lia].
  - rewrite posts_retried_log, sleeps_retried_log. repeat split; lia.
Qed.

(** The run of the specification: 503 with an estimate of 2, 503 with a
    body that does not decode, then a PNG; three attempts, sleeps of 3
    and 10 seconds, and the PNG returned. *)
Lemma warm_up_run :
  generate 3 (fresh [Replies (warming_up (JInt 2)); Replies no_body_503;
                     Replies image_png])
  = (Ok png,
     {| script := [];
        log := [posted; Slept (JInt 3); posted; Slept (JInt 10); posted] |}).
Proof. reflexivity. Qed.

(** Claim C1.  A 503 whose [estimated_time] is a string is not slept on
    and not retried: the clamp raises [TypeError] on the first attempt,
    and the two replies that would have completed the run stay unread. *)
Theorem string_estimate_not_retried :
  generate 3 (fresh [Replies (warming_up (JStr "soon")); Replies no_body_503;
                     Replies image_png])
  = (Raise TypeError,
     {| script := [Replies no_body_503; Replies image_png];
        log := [posted] |}).
Proof. reflexivity. Qed.

(** Claim C2.  With every attempt of the budget answered by a 503, the
    call does not reach the exhausted-retries error when the first
    [estimated_time] is null: it raises [TypeError] after one request and
    no sleep, for a budget of one and for a budget of two. *)
Theorem null_estimate_not_exhausted :
  generate 1 (fresh [Replies (warming_up JNull)])
  = (Raise TypeError, {| script := []; log := [posted] |})
  ∧ generate 2 (fresh [Replies (warming_up JNull); Replies no_body_503])
    = (Raise TypeError, {| script := [Replies no_body_503]; log := [posted] |}).
Proof. split; reflexivity. Qed.

(** An estimate of NaN passes the clamp and is refused by [time.sleep]. *)
Lemma nan_estimate_raises_value_error :
  generate 3 (fresh [Replies (warming_up (JFloat FNaN)); Replies image_png])
  = (Raise ValueError, {| script := [Replies image_png]; log := [posted] |}).
Proof. reflexivity. Qed.

End Generate.

(** * The properties at sample inputs *)

Lemma retried_warming_up_2 : Forall retried [warming_up (JInt 2)].
Proof. repeat constructor. Qed.

Lemma image_returned_at_once_witness :
  sample_generate 3
    (fresh [Replies (warming_up (JInt 2)); Replies image_png; Replies no_body_503])
  = (Ok png,
     {| script := [Replies no_body_503];
        log := [sample_post; Slept (JInt 3); sample_post] |}).
Proof.
  apply (image_returned_at_once sample_str "hf_sample" "brick street" "blurry"
           30 1024 1024 (FFinite 7) None
           [warming_up (JInt 2)] image_png 3
           (fresh [Replies (warming_up (JInt 2)); Replies image_png;
                   Replies no_body_503])
           [Replies no_body_503]).
  - reflexivity.
  - exact retried_warming_up_2.
  - simpl. lia.
  - reflexivity.
  - reflexivity.
Defined.

Lemma other_reply_raises_at_once_witness :
  sample_generate 3 (fresh [Replies plain_text_200; Replies image_png])
  = (Raise (RuntimeError
              "HF API error: status=200, content-type=text/plain, body=Model too busy"),
     {| script := [Replies image_png]; log := [sample_post] |}).
Proof.
  apply (other_reply_raises_at_once sample_str "hf_sample" "brick street" "blurry"
           30 1024 1024 (FFinite 7) None
           [] plain_text_200 3
           (fresh [Replies plain_text_200; Replies image_png])
           [Replies image_png]).
  - reflexivity.
  - constructor.
  - simpl. lia.
  - intros [_ H]. vm_compute in H. discriminate H.
  - vm_compute. discriminate.
  - vm_compute. discriminate.
Defined.

Lemma unordered_estimate_raises_type_error_witness :
  sample_generate 3
    (fresh [Replies (warming_up (JInt 2)); Replies (warming_up (JStr "soon"));
            Replies image_png])
  = (Raise TypeError,
     {| script := [Replies image_png];
        log := [sample_post; Slept (JInt 3); sample_post] |}).
Proof.
  apply (unordered_estimate_raises_type_error sample_str "hf_sample"
           "brick street" "blurry" 30 1024 1024 (FFinite 7) None
           [warming_up (JInt 2)] (warming_up (JStr "soon")) 3
           (fresh [Replies (warming_up (JInt 2));
                   Replies (warming_up (JStr "soon")); Replies image_png])
           [Replies image_png]
           (<["estimated_time" := JStr "soon"]> ∅) (JStr "soon")).
  - reflexivity.
  - exact retried_warming_up_2.
  - simpl. lia.
  - left. reflexivity.
  - reflexivity.
  - reflexivity.
  - reflexivity.
Defined.

Lemma no_budget_no_attempt_witness :
  sample_generate 0 (fresh [Replies image_png])
  = (Raise (RuntimeError exhausted_message), fresh [Replies image_png]).
Proof.
  apply (no_budget_no_attempt sample_str "hf_sample" "brick street" "blurry"
           30 1024 1024 (FFinite 7) None 0 (fresh [Replies image_png])).
  lia.
Defined.

(** Claim C9 as stated fails for a boolean.  JSON [true] is not a number,
    yet Python orders it against 3 as the integer 1: the call sleeps 3
    seconds and goes on to the next attempt, which here returns the
    image. *)
Lemma boolean_estimate_is_slept_on :
  transient (warming_up (JBool true)) = true
  ∧ json_result (warming_up (JBool true))
    = Some (JDict (<["estimated_time" := JBool true]> ∅))
  ∧ json_number (JBool true) = false
  ∧ sample_generate 3 (fresh [Replies (warming_up (JBool true)); Replies image_png])
    = (Ok png,
       {| script := []; log := [sample_post; Slept (JInt 3); sample_post] |})
  ∧ fst (sample_generate 3
           (fresh [Replies (warming_up (JBool true)); Replies image_png]))
    ≠ Raise TypeError.
Proof. repeat split; try reflexivity. discriminate. Qed.

(** * Every run of the loop *)

Lemma clamp_in_range est d :
  usable_estimate est = true → clamp est = Ok d →
  ∃ q, seconds_of d = Some q ∧ (3 <= q)%Q ∧ (q <= 30)%Q.
Proof.
  destruct est as [|b|z|[q| | |]| | |]; try discriminate; intros _.
  - rewrite clamp_bool. intros [= <-]. exists 3%Q. by repeat split.
  - rewrite clamp_int. intros [= <-].
    exists (inject_Z (Z.min (Z.max z 3) 30)). split; [done|]. split.
    + change 3%Q with (inject_Z 3). rewrite <- Zle_Qle. lia.
    + change 30%Q with (inject_Z 30). rewrite <- Zle_Qle. lia.
  - rewrite clamp_finite. destruct (Qle_bool 3 q) eqn:E3.
    + destruct (Qle_bool q 30) eqn:E30; intros [= <-].
      * exists q. split; [done|]. split; by apply Qle_bool_iff.
      * exists 30%Q. by repeat split.
    + intros [= <-]. exists 3%Q. by repeat split.
  - intros [= <-]. exists 30%Q. by repeat split.
  - intros [= <-]. exists 3%Q. by repeat split.
Qed.

Section Runs.

Variable py_str : json -> string.
Variable HF_TOKEN : string.
Variable payload : gmap string json.

Let loop := attempts py_str HF_TOKEN payload.
Let posted := post_event HF_TOKEN payload.

(** An unusable estimate ends the call in [TypeError] (no order with an
    [int]) or in [ValueError] (NaN, refused by [time.sleep]). *)
Lemma loop_unusable_error n w r rest :
  script w = Replies r :: rest → transient r = true →
  usable_estimate (estimate_of r) = false →
  ∃ e, (e = TypeError ∨ e = ValueError)
       ∧ loop (S n) w = (Raise e, after_post HF_TOKEN payload w rest).
Proof.
  intros Hs Ht Hu. pose proof (transient_not_image r Ht) as Hi.
  destruct (estimate_of r) as [| | |[]| | |] eqn:He; try discriminate.
  1,3,4,5: exists TypeError; split; [by left|];
    apply (loop_transient_raise py_str HF_TOKEN payload n w r rest TypeError);
    [done | done | by rewrite He].
  exists ValueError. split; [by right|].
  unfold loop, image_reply, transient in *. cbn [attempts].
  unfold bind at 1. unfold requests_post. rewrite Hs.
  cbn zeta. rewrite Hi, Ht, He. reflexivity.
Qed.

(** The relation covers the function: whatever the script, the loop ends
    in one of the ways the relation lists. *)
Lemma loop_ends n : ∀ w, run_ends py_str HF_TOKEN payload n w (loop n w).
Proof.
  induction n as [|n IH]; intros w; [constructor|].
  destruct (script w) as [|[r|e] rest] eqn:Hs.
  - replace (loop (S n) w)
      with (Raise (A:=bytes) ConnectionError, after_post HF_TOKEN payload w []).
    + by constructor.
    + unfold loop. cbn [attempts]. unfold bind at 1. unfold requests_post.
      by rewrite Hs.
  - destruct (image_reply r) eqn:Hi.
    { unfold loop. rewrite (loop_image py_str HF_TOKEN payload n w r rest Hs Hi).
      by constructor. }
    destruct (transient r) eqn:Ht.
    2:{ unfold loop.
        rewrite (loop_other py_str HF_TOKEN payload n w r rest Hs Hi Ht).
        by constructor. }
    destruct (usable_estimate (estimate_of r)) eqn:Hu.
    + destruct (clamp_usable _ Hu) as (d & Hc & Hsl).
      unfold loop.
      rewrite (loop_transient_sleep py_str HF_TOKEN payload n w r rest d Hs Ht Hc).
      * eapply ends_retry; [done | done | done | apply IH].
      * rewrite Hsl. unfold after_post, after_sleep. cbn [script log].
        by rewrite <- app_assoc.
    + destruct (loop_unusable_error n w r rest Hs Ht Hu) as (e & He & ->).
      by eapply ends_unusable.
  - replace (loop (S n) w)
      with (Raise (A:=bytes) e, after_post HF_TOKEN payload w rest).
    + by constructor.
    + unfold loop. cbn [attempts]. unfold bind at 1. unfold requests_post.
      by rewrite Hs.
Qed.

Lemma posts_app l1 l2 : posts (l1 ++ l2) = (posts l1 + posts l2)%nat.
Proof. unfold posts. by rewrite List.filter_app, length_app. Qed.

Lemma sleeps_app l1 l2 : sleeps (l1 ++ l2) = (sleeps l1 + sleeps l2)%nat.
Proof. unfold sleeps. by rewrite List.filter_app, length_app. Qed.

(** What every run keeps: the log only grows, by well-formed events; each
    request reads one scripted outcome; the requests stay within the
    attempts left and each sleep follows a request of its own. *)
Lemma run_invariant n w out :
  run_ends py_str HF_TOKEN payload n w out →
  ∃ added,
    log (snd out) = (log w ++ added)%list
    ∧ script (snd out) = drop (posts added) (script w)
    ∧ Forall (event_ok HF_TOKEN payload) added
    ∧ (posts added ≤ n)%nat
    ∧ (sleeps added ≤ posts added)%nat
    ∧ (posts added ≤ sleeps added + 1)%nat.
Proof.
  induction 1 as [w|n w Hs|n w e rest Hs|n w r rest Hs Hi|n w r rest Hs Hi Ht
                 |n w r rest e Hs Ht Hu He|n w r rest d out Hs Hr Hc Hrun IH].
  - exists []. cbn. rewrite app_nil_r. repeat split; auto with lia.
  - exists [posted]. cbn. rewrite Hs. repeat split; auto with lia.
    by repeat constructor.
  - exists [posted]. cbn. rewrite Hs. repeat split; auto with lia.
    by repeat constructor.
  - exists [posted]. cbn. rewrite Hs. repeat split; auto with lia.
    by repeat constructor.
  - exists [posted]. cbn. rewrite Hs. repeat split; auto with lia.
    by repeat constructor.
  - exists [posted]. cbn. rewrite Hs. repeat split; auto with lia.
    by repeat constructor.
  - destruct IH as (added & Hlog & Hscr & Hok & Hp & Hsp & Hps).
    exists (posted :: Slept d :: added). cbn [after_sleep script log] in *.
    split; [|split; [|split; [|split; [|split]]]].
    + rewrite Hlog. by rewrite <- app_assoc.
    + rewrite Hscr, Hs. reflexivity.
    + constructor; [reflexivity|]. constructor; [|done].
      by apply (clamp_in_range (estimate_of r)); [apply Hr|].
    + change (posts (posted :: Slept d :: added)) with (S (posts added)). lia.
    + change (posts (posted :: Slept d :: added)) with (S (posts added)).
      change (sleeps (posted :: Slept d :: added)) with (S (sleeps added)). lia.
    + change (posts (posted :: Slept d :: added)) with (S (posts added)).
      change (sleeps (posted :: Slept d :: added)) with (S (sleeps added)). lia.
Qed.

(** A run that returns bytes went through retried replies only and then
    met an image. *)
Lemma run_ok n w b w' :
  run_ends py_str HF_TOKEN payload n w (Ok b, w') →
  ∃ rs r rest,
    script w = (map Replies rs ++ Replies r :: rest)%list
    ∧ Forall retried rs
    ∧ (length rs < n)%nat
    ∧ image_reply r = true
    ∧ b = content r
    ∧ w' = {| script := rest;
              log := (log w ++ retried_log HF_TOKEN payload rs ++ [posted])%list |}.
Proof.
  remember (Ok b, w') as out eqn:Hout. intros Hrun. revert b w' Hout.
  induction Hrun as [w|n w Hs|n w e rest Hs|n w r rest Hs Hi|n w r rest Hs Hi Ht
                    |n w r rest e Hs Ht Hu He|n w r rest d out Hs Hr Hc Hrun IH];
    intros b w' Hout; try discriminate.
  - injection Hout as <- <-. exists [], r, rest. cbn.
    repeat split; auto with lia.
  - destruct (IH b w' Hout) as (rs & r' & rest' & Hs' & Hrs & Hlen & Hi & Hb & Hw).
    exists (r :: rs), r', rest'. cbn [after_sleep script log] in *.
    split; [by rewrite Hs, Hs'|]. split; [by constructor|].
    split; [cbn; lia|]. split; [done|]. split; [done|].
    rewrite Hw. f_equal. unfold retried_log. cbn [flat_map].
    unfold sleep_of at 2. rewrite Hc. by rewrite <- !app_assoc.
Qed.

(** The message of a rejected reply is never the message of the
    exhausted budget. *)
Lemma api_error_not_exhausted r : api_error_message py_str r ≠ exhausted_message.
Proof. unfold api_error_message, exhausted_message. discriminate. Qed.

(** A run that ends in the exhausted-budget error used every attempt on
    a retried reply, provided the transport itself raises no
    [RuntimeError]. *)
Lemma run_exhausted n w w' :
  run_ends py_str HF_TOKEN payload n w
    (Raise (RuntimeError exhausted_message), w') →
  (∀ msg, Fails (RuntimeError msg) ∉ script w) →
  ∃ rs,
    script w = (map Replies rs ++ script w')%list
    ∧ Forall retried rs
    ∧ length rs = n
    ∧ log w' = (log w ++ retried_log HF_TOKEN payload rs)%list.
Proof.
  remember (Raise (A:=bytes) (RuntimeError exhausted_message), w') as out eqn:Hout.
  intros Hrun. revert w' Hout.
  induction Hrun as [w|n w Hs|n w e rest Hs|n w r rest Hs Hi|n w r rest Hs Hi Ht
                    |n w r rest e Hs Ht Hu He|n w r rest d out Hs Hr Hc Hrun IH];
    intros w' Hout Hnf; try discriminate.
  - injection Hout as <-. exists []. cbn. by rewrite app_nil_r.
  - injection Hout as -> <-. exfalso. apply (Hnf exhausted_message).
    rewrite Hs. by left.
  - injection Hout as -> _. by destruct He.
  - destruct (IH w' Hout) as (rs & Hs' & Hrs & Hlen & Hlog).
    { intros msg Hin. apply (Hnf msg). rewrite Hs. by right. }
    exists (r :: rs). cbn [after_sleep script log] in *.
    split; [by rewrite Hs, Hs'|]. split; [by constructor|].
    split; [cbn; lia|].
    rewrite Hlog. unfold retried_log. cbn [flat_map].
    unfold sleep_of at 2. rewrite Hc. by rewrite <- !app_assoc.
Qed.

(** A transport failure leaves the loop as it is raised. *)
Lemma loop_failed n w e rest :
  script w = Fails e :: rest →
  loop (S n) w = (Raise e, after_post HF_TOKEN payload w rest).
Proof.
  intros Hs. unfold loop. cbn [attempts]. unfold bind at 1.
  unfold requests_post. by rewrite Hs.
Qed.

(** An estimate of NaN passes the clamp and is refused by [time.sleep]. *)
Lemma loop_nan n w r rest :
  script w = Replies r :: rest → transient r = true →
  estimate_of r = JFloat FNaN →
  loop (S n) w = (Raise ValueError, after_post HF_TOKEN payload w rest).
Proof.
  intros Hs Ht He. pose proof (transient_not_image r Ht) as Hi.
  unfold loop, image_reply, transient in *. cbn [attempts].
  unfold bind at 1. unfold requests_post. rewrite Hs.
  cbn zeta. rewrite Hi, Ht, He. reflexivity.
Qed.

(** The seconds slept stay below 30 for each sleep. *)
Lemma seconds_slept_bound added :
  Forall (event_ok HF_TOKEN payload) added →
  (seconds_slept added <= 30 * inject_Z (Z.of_nat (sleeps added)))%Q.
Proof.
  induction 1 as [|e added He _ IH]; [cbn; discriminate|].
  destruct e as [u h b t|d].
  - exact IH.
  - destruct He as (q & Hq & _ & H30).
    change (seconds_slept (Slept d :: added))
      with (default 0 (seconds_of d) + seconds_slept added)%Q.
    change (sleeps (Slept d :: added)) with (S (sleeps added)).
    rewrite Hq. cbn [default from_option].
    rewrite Nat2Z.inj_succ. unfold Z.succ. rewrite inject_Z_plus.
    change (inject_Z 1) with 1%Q. unfold id. lra.
Qed.

End Runs.

(** * Every call of [call_hf_text2image] *)

Section EveryCall.

Variable py_str : json -> string.
Variable HF_TOKEN : string.
Variables prompt negative_prompt : string.
Variables steps width height : Z.
Variable guidance : pyfloat.
Variable seed : option Z.

Let generate :=
  call_hf_text2image py_str HF_TOKEN prompt negative_prompt steps guidance
    width height seed.
Let payload :=
  build_payload prompt negative_prompt steps guidance width height seed.
Let posted := post_event HF_TOKEN payload.

Lemma generate_ends max_retries w :
  run_ends py_str HF_TOKEN payload (Z.to_nat max_retries) w
    (generate max_retries w).
Proof. apply loop_ends. Qed.

(** Property X8.  A 503 or 504 whose body does not decode, decodes to
    something other than a dictionary, or decodes to a dictionary without
    [estimated_time], is slept on for exactly 10 seconds, and the loop goes
    on with one attempt less. *)
Theorem unreadable_estimate_sleeps_10 rs r max_retries w rest :
  script w = (map Replies rs ++ Replies r :: rest)%list →
  Forall retried rs →
  Z.of_nat (length rs) < max_retries →
  status_code r = 503 ∨ status_code r = 504 →
  match json_result r with
  | Some (JDict j) => j !! "estimated_time" = None
  | _ => True
  end →
  ∃ n, (length rs + S n)%nat = Z.to_nat max_retries
       ∧ generate max_retries w
         = attempts py_str HF_TOKEN payload n
             {| script := rest;
                log := (log w ++ retried_log HF_TOKEN payload rs
                          ++ [posted; Slept (JInt 10)])%list |}.
Proof.
  intros Hs Hrs Hlt Hst Hj.
  assert (estimate_of r = JInt 10) as He.
  { unfold estimate_of. destruct (json_result r) as [[]|]; try done.
    by rewrite Hj. }
  assert (retried r) as Hr.
  { split; [|by rewrite He].
    unfold transient. destruct Hst as [-> | ->]; reflexivity. }
  exists (Z.to_nat max_retries - S (length rs))%nat. split; [lia|].
  unfold generate.
  rewrite (generate_reaches py_str HF_TOKEN prompt negative_prompt steps width
             height guidance seed (rs ++ [r])
             (Z.to_nat max_retries - S (length rs)) max_retries w rest).
  - unfold retried_log. rewrite flat_map_app. cbn [flat_map].
    unfold sleep_of. rewrite He. by rewrite app_nil_r.
  - rewrite map_app. by rewrite <- app_assoc.
  - apply Forall_app. split; [done|]. by constructor.
  - rewrite length_app. simpl. lia.
Qed.

(** Property X9.  A 503 or 504 whose [estimated_time] is NaN ends the
    call in [ValueError]: the clamp keeps NaN and [time.sleep] refuses it;
    the request is logged, nothing is slept, no further request is made. *)
Theorem nan_estimate_ends_in_value_error rs r max_retries w rest j :
  script w = (map Replies rs ++ Replies r :: rest)%list →
  Forall retried rs →
  Z.of_nat (length rs) < max_retries →
  status_code r = 503 ∨ status_code r = 504 →
  json_result r = Some (JDict j) →
  j !! "estimated_time" = Some (JFloat FNaN) →
  generate max_retries w
  = (Raise ValueError,
     {| script := rest;
        log := (log w ++ retried_log HF_TOKEN payload rs ++ [posted])%list |}).
Proof.
  intros Hs Hrs Hlt Hst Hj Hv. unfold generate.
  destruct (generate_reaches_next py_str HF_TOKEN prompt negative_prompt steps
              width height guidance seed rs r max_retries w rest Hs Hrs Hlt)
    as [n ->].
  rewrite (loop_nan py_str HF_TOKEN payload n _ r rest); [|done| |].
  - unfold after_post. cbn [script log]. by rewrite <- app_assoc.
  - unfold transient. destruct Hst as [-> | ->]; reflexivity.
  - unfold estimate_of. by rewrite Hj, Hv.
Qed.

(** Property X10.  An exception of [requests.post] itself leaves the call
    as it is: at whatever attempt it is raised, it is not caught, nothing
    is slept and no further request is made. *)
Theorem transport_failure_propagates rs e max_retries w rest :
  script w = (map Replies rs ++ Fails e :: rest)%list →
  Forall retried rs →
  Z.of_nat (length rs) < max_retries →
  generate max_retries w
  = (Raise e,
     {| script := rest;
        log := (log w ++ retried_log HF_TOKEN payload rs ++ [posted])%list |}).
Proof.
  intros Hs Hrs Hlt. unfold generate.
  rewrite (generate_reaches py_str HF_TOKEN prompt negative_prompt steps width
             height guidance seed rs
             (S (Z.to_nat max_retries - S (length rs))) max_retries w
             (Fails e :: rest)); [|done|done|lia].
  rewrite (loop_failed py_str HF_TOKEN payload _ _ e rest); [|done].
  unfold after_post. cbn [script log]. by rewrite <- app_assoc.
Qed.

(** Property X11.  Whatever the service answers, every sleep of a call
    lasts between 3 and 30 seconds. *)
Theorem every_sleep_between_3_and_30 max_retries w :
  ∃ added,
    log (snd (generate max_retries w)) = (log w ++ added)%list
    ∧ ∀ d, Slept d ∈ added →
           ∃ q, seconds_of d = Some q ∧ (3 <= q)%Q ∧ (q <= 30)%Q.
Proof.
  destruct (run_invariant _ _ _ _ _ _ (generate_ends max_retries w))
    as (added & Hlog & _ & Hok & _).
  exists added. split; [done|]. intros d Hin.
  by apply (proj1 (Forall_forall _ _) Hok (Slept d)).
Qed.

(** Property X12.  Whatever the service answers, a call makes at most
    [max_retries] requests (none for a count of zero or less); it reads
    one scripted outcome per request and leaves the others; and it sleeps
    only after a request: as often as it asks, or once less. *)
Theorem requests_within_budget max_retries w :
  ∃ added,
    log (snd (generate max_retries w)) = (log w ++ added)%list
    ∧ script (snd (generate max_retries w)) = drop (posts added) (script w)
    ∧ (posts added ≤ Z.to_nat max_retries)%nat
    ∧ (sleeps added ≤ posts added)%nat
    ∧ (posts added ≤ sleeps added + 1)%nat.
Proof.
  destruct (run_invariant _ _ _ _ _ _ (generate_ends max_retries w))
    as (added & Hlog & Hscr & _ & Hp & Hsp & Hps).
  by exists added.
Qed.

(** Property X13.  Every request of a call is the same: the fixed
    address, the headers with the bearer token, the payload built from the
    arguments, and a timeout of 180 seconds. *)
Theorem every_request_alike max_retries w :
  ∃ added,
    log (snd (generate max_retries w)) = (log w ++ added)%list
    ∧ ∀ url hdrs body timeout,
        Posted url hdrs body timeout ∈ added →
        url = API_URL
        ∧ hdrs = HEADERS HF_TOKEN
        ∧ body = build_payload prompt negative_prompt steps guidance
                   width height seed
        ∧ timeout = 180.
Proof.
  destruct (run_invariant _ _ _ _ _ _ (generate_ends max_retries w))
    as (added & Hlog & _ & Hok & _).
  exists added. split; [done|]. intros url hdrs body timeout Hin.
  pose proof (proj1 (Forall_forall _ _) Hok _ Hin) as He.
  cbn in He. unfold post_event in He. by injection He as -> -> -> ->.
Qed.

(** Property X14.  Whatever the service answers, the sleeps of a call add
    up to at most 30 seconds for each attempt of the budget. *)
Theorem sleep_total_bounded max_retries w :
  ∃ added,
    log (snd (generate max_retries w)) = (log w ++ added)%list
    ∧ (seconds_slept added <= 30 * inject_Z (Z.max max_retries 0))%Q.
Proof.
  destruct (run_invariant _ _ _ _ _ _ (generate_ends max_retries w))
    as (added & Hlog & _ & Hok & Hp & Hsp & _).
  exists added. split; [done|].
  eapply Qle_trans; [apply (seconds_slept_bound HF_TOKEN payload), Hok|].
  apply Qmult_le_l; [done|]. rewrite <- Zle_Qle. lia.
Qed.

(** Property X15.  A call returns bytes only in one way: every earlier
    attempt met a retried reply, and the attempt that returns met status
    200 with an image content type, whose body is what is returned. *)
Theorem bytes_only_from_image max_retries w b w' :
  generate max_retries w = (Ok b, w') →
  ∃ rs r rest,
    script w = (map Replies rs ++ Replies r :: rest)%list
    ∧ Forall retried rs
    ∧ Z.of_nat (length rs) < max_retries
    ∧ status_code r = 200
    ∧ String.prefix "image/" (ctype_of r) = true
    ∧ b = content r
    ∧ w' = {| script := rest;
              log := (log w ++ retried_log HF_TOKEN payload rs ++ [posted])%list |}.
Proof.
  intros Hg. pose proof (generate_ends max_retries w) as Hrun.
  rewrite Hg in Hrun.
  destruct (run_ok _ _ _ _ _ _ _ Hrun)
    as (rs & r & rest & Hs & Hrs & Hlen & Hi & Hb & Hw).
  exists rs, r, rest. unfold image_reply in Hi.
  apply andb_true_iff in Hi as [H200 Himg]. apply Z.eqb_eq in H200.
  repeat split; try done. lia.
Qed.

(** Property X16.  A call ends in the exhausted-retries error only when
    each attempt of the budget met a retried reply (the transport itself
    raising no [RuntimeError]): it has then made as many requests and
    slept as many times as the budget. *)
Theorem exhausted_only_after_full_budget max_retries w w' :
  generate max_retries w = (Raise (RuntimeError exhausted_message), w') →
  (∀ msg, Fails (RuntimeError msg) ∉ script w) →
  ∃ rs,
    script w = (map Replies rs ++ script w')%list
    ∧ Forall retried rs
    ∧ length rs = Z.to_nat max_retries
    ∧ log w' = (log w ++ retried_log HF_TOKEN payload rs)%list
    ∧ posts (retried_log HF_TOKEN payload rs) = Z.to_nat max_retries
    ∧ sleeps (retried_log HF_TOKEN payload rs) = Z.to_nat max_retries.
Proof.
  intros Hg Hnf. pose proof (generate_ends max_retries w) as Hrun.
  rewrite Hg in Hrun.
  destruct (run_exhausted _ _ _ _ _ _ Hrun Hnf) as (rs & Hs & Hrs & Hlen & Hlog).
  exists rs. rewrite posts_retried_log, sleeps_retried_log.
  by repeat split.
Qed.

End EveryCall.

(** * More on the credential lookup *)

(** Property X1.  Start-up goes on with a token exactly when a secrets
    file is in place, the token is not empty, and it is the secret-store
    entry or, with no such entry, the value of the environment variable. *)
Theorem resolve_ready_iff (secrets : secrets_store)
    (environ : gmap string string) (token : string) :
  resolve secrets environ = Ready token
  ↔ ∃ entries,
      secrets = SecretsFile entries
      ∧ token ≠ ""
      ∧ (entries !! KEY = Some token
         ∨ (entries !! KEY = None ∧ environ !! KEY = Some token)).
Proof.
  destruct secrets as [|entries].
  { split; [discriminate|]. by intros (? & [=] & _). }
  split.
  - intros Hr. exists entries. split; [done|]. revert Hr.
    unfold resolve, get_hf_token.
    destruct (entries !! KEY) as [s|] eqn:Hs.
    + case_bool_decide as He; [discriminate|]. intros [= <-]. auto.
    + destruct (environ !! KEY) as [env|] eqn:Henv; [|discriminate].
      destruct (decide (env = "")) as [->|He]; [discriminate|].
      rewrite !(bool_decide_eq_false_2 (env = "")) by done.
      intros [= <-]. auto.
  - intros (entries' & [= <-] & Hne & [Hs | [Hs Henv]]).
    + apply resolve_ready; [|done]. by apply get_hf_token_secret.
    + apply resolve_ready; [|done].
      rewrite get_hf_token_environ by done. by rewrite Henv.
Qed.

(** Property X2.  Start-up shows the missing-token message and stops
    exactly when a secrets file is in place and its entry is present and
    empty, or it has no such entry and the environment variable is unset
    or empty; and it ends in the exception of the secret store exactly
    when there is no secrets file. *)
Theorem resolve_stopped_iff (secrets : secrets_store)
    (environ : gmap string string) :
  (resolve secrets environ = Stopped missing_token_message
   ↔ ∃ entries,
       secrets = SecretsFile entries
       ∧ (entries !! KEY = Some ""
          ∨ (entries !! KEY = None
             ∧ (environ !! KEY = None ∨ environ !! KEY = Some ""))))
  ∧ (resolve secrets environ = Unhandled ↔ secrets = NoSecretsFile).
Proof.
  destruct secrets as [|entries].
  { split; [|done]. split; [discriminate|]. by intros (? & [=] & _). }
  split.
  2:{ split; [|discriminate]. unfold resolve, get_hf_token.
      repeat case_match; discriminate. }
  split.
  - intros Hr. exists entries. split; [done|]. revert Hr.
    unfold resolve, get_hf_token.
    destruct (entries !! KEY) as [s|] eqn:Hs.
    + case_bool_decide as He; [|discriminate]. intros _. left. by rewrite He.
    + destruct (environ !! KEY) as [env|] eqn:Henv; [|by auto].
      destruct (decide (env = "")) as [->|He]; [by auto|].
      rewrite !(bool_decide_eq_false_2 (env = "")) by done. discriminate.
  - intros (entries' & [= <-] & [Hs | [Hs [Henv | Henv]]]).
    + by apply empty_secret_stops.
    + unfold resolve. rewrite get_hf_token_environ by done. by rewrite Henv.
    + unfold resolve. rewrite get_hf_token_environ by done. by rewrite Henv.
Qed.

(** * More on the payload *)

(** The payload is the initial dictionary with its parameters group
    replaced by the group extended with the optional entries. *)
Lemma build_payload_form prompt negative_prompt steps guidance width height seed :
  let base :=
    parameters_of (initial_payload prompt steps guidance width height) in
  let with_negative :=
    if bool_decide (negative_prompt = "") then base
    else <["negative_prompt" := JStr negative_prompt]> base in
  let with_seed :=
    match seed with
    | Some n => <["seed" := JInt n]> with_negative
    | None => with_negative
    end in
  build_payload prompt negative_prompt steps guidance width height seed
  = <["parameters" := JDict with_seed]>
      (initial_payload prompt steps guidance width height).
Proof.
  cbn zeta. unfold build_payload.
  assert (initial_payload prompt steps guidance width height !! "parameters"
          = Some (JDict (parameters_of
                           (initial_payload prompt steps guidance width height))))
    as Hp by reflexivity.
  case_bool_decide as Hneg; destruct seed as [n|].
  - unfold set_parameter. by rewrite Hp.
  - symmetry. by apply insert_id.
  - unfold set_parameter at 1.
    rewrite (set_parameter_lookup _ _ _ _ Hp).
    unfold set_parameter. rewrite Hp. by rewrite insert_insert_eq.
  - unfold set_parameter. by rewrite Hp.
Qed.

(** Property X3.  Whatever the optional arguments, the payload has the
    three keys [inputs], [parameters] and [options] and no other; [inputs]
    is the prompt, [options] asks the service to wait for the model, and
    the parameters group holds the step count, the guidance scale, the
    width and the height as given. *)
Theorem payload_fixed_fields prompt negative_prompt steps guidance width height seed :
  let payload :=
    build_payload prompt negative_prompt steps guidance width height seed in
  dom payload = ({["inputs"; "parameters"; "options"]} : gset string)
  ∧ payload !! "inputs" = Some (JStr prompt)
  ∧ payload !! "options" = Some (JDict (<["wait_for_model" := JBool true]> ∅))
  ∧ parameters_of payload !! "num_inference_steps" = Some (JInt steps)
  ∧ parameters_of payload !! "guidance_scale" = Some (JFloat guidance)
  ∧ parameters_of payload !! "width" = Some (JInt width)
  ∧ parameters_of payload !! "height" = Some (JInt height).
Proof.
  cbn zeta. rewrite build_payload_form. cbn zeta.
  rewrite parameters_of_initial.
  split; [|split; [|split]].
  - unfold initial_payload. rewrite !dom_insert_L, dom_empty_L. set_solver.
  - by rewrite lookup_insert_ne.
  - by rewrite lookup_insert_ne.
  - unfold parameters_of. rewrite lookup_insert_eq.
    case_bool_decide; destruct seed; by simplify_map_eq.
Qed.

(** Property X4.  The parameters group has the four fixed keys, the key
    [negative_prompt] when the negative prompt is not empty, the key
    [seed] when a seed is given, and no other key. *)
Theorem parameters_keys prompt negative_prompt steps guidance width height seed :
  dom (parameters_of
         (build_payload prompt negative_prompt steps guidance width height seed))
  = ({["num_inference_steps"; "guidance_scale"; "width"; "height"]}
     ∪ (if bool_decide (negative_prompt = "") then ∅ else {["negative_prompt"]})
     ∪ (match seed with Some _ => {["seed"]} | None => ∅ end) : gset string).
Proof.
  rewrite build_payload_form. cbn zeta. rewrite parameters_of_initial.
  unfold parameters_of. rewrite lookup_insert_eq.
  case_bool_decide; destruct seed;
    rewrite !dom_insert_L, dom_empty_L; set_solver.
Qed.

(** * The seed field *)

Import Page.

Lemma digits_value_decimal s : ∀ acc,
  all_chars is_decimal s = true →
  ∃ n, digits_value acc s = Some n ∧ (0 ≤ acc → 0 ≤ n).
Proof.
  induction s as [|c s IH]; intros acc Hall.
  - by exists acc.
  - cbn [all_chars] in Hall. apply andb_true_iff in Hall as [Hc Hs].
    cbn [digits_value]. unfold digit_value.
    unfold is_decimal, code in Hc. rewrite Hc.
    destruct (IH (10 * acc + (Z.of_N (N_of_ascii c) - 48)) Hs) as (n & Hn & Hpos).
    exists n. split; [done|]. intros Hacc. apply Hpos.
    apply andb_true_iff in Hc as [H48 _]. apply Z.leb_le in H48. lia.
Qed.

Lemma isdigit_nonempty s : isdigit s = true → s ≠ "".
Proof. by destruct s. Qed.

(** The blanks [int] skips are blanks for [strip]; a decimal digit is no
    blank. *)
Lemma int_blank_is_space c : is_int_blank c = true → is_space c = true.
Proof.
  unfold is_int_blank, is_space. cbn zeta. generalize (code c). intros n.
  destruct (Z.leb_spec 9 n), (Z.leb_spec n 13), (Z.eqb_spec n 32),
    (Z.eqb_spec n 133), (Z.eqb_spec n 160), (Z.leb_spec 28 n),
    (Z.leb_spec n 32); cbn; try done; lia.
Qed.

Lemma decimal_not_space c : is_decimal c = true → is_space c = false.
Proof.
  unfold is_decimal, is_space. cbn zeta. generalize (code c). intros n.
  destruct (Z.leb_spec 48 n), (Z.leb_spec n 57), (Z.leb_spec 9 n),
    (Z.leb_spec n 13), (Z.eqb_spec n 133), (Z.eqb_spec n 160),
    (Z.leb_spec 28 n), (Z.leb_spec n 32); cbn; try done; lia.
Qed.

Lemma all_chars_impl (p q : ascii → bool) s :
  (∀ c, p c = true → q c = true) →
  all_chars p s = true → all_chars q s = true.
Proof.
  intros Hpq. induction s as [|c s IH]; [done|]. cbn [all_chars].
  intros [Hc Hs]%andb_true_iff. apply andb_true_iff. auto.
Qed.

(** What the two strippers take off is blanks. *)
Lemma lstrip_with_decomp blank s :
  ∃ lead, s = lead +:+ lstrip_with blank s ∧ all_chars blank lead = true.
Proof.
  induction s as [|c s (lead & Hs & Hlead)]; [by exists ""|].
  cbn [lstrip_with]. destruct (blank c) eqn:Hc.
  - exists (String c lead). split.
    + change (String c lead +:+ lstrip_with blank s)
        with (String c (lead +:+ lstrip_with blank s)). by f_equal.
    + cbn [all_chars]. by rewrite Hc.
  - by exists "".
Qed.

Lemma rstrip_with_decomp blank s :
  ∃ trail, s = rstrip_with blank s +:+ trail ∧ all_chars blank trail = true.
Proof.
  induction s as [|c s (trail & Hs & Htrail)]; [by exists ""|].
  cbn [rstrip_with]. destruct (rstrip_with blank s) as [|k kept] eqn:Hr.
  - change ("" +:+ trail) with trail in Hs. subst s.
    destruct (blank c) eqn:Hc.
    + exists (String c trail). split; [done|]. cbn [all_chars]. by rewrite Hc.
    + by exists trail.
  - exists trail. split; [|done].
    change (String c (String k kept) +:+ trail)
      with (String c (String k kept +:+ trail)). by f_equal.
Qed.

(** [strip] on a run of decimal digits between blanks. *)
Lemma lstrip_lead lead rest :
  all_chars is_space lead = true → lstrip (lead +:+ rest) = lstrip rest.
Proof.
  induction lead as [|c lead IH]; [done|]. cbn [all_chars].
  intros [Hc Hlead]%andb_true_iff.
  change (lstrip (String c lead +:+ rest))
    with (if is_space c then lstrip (lead +:+ rest)
          else String c (lead +:+ rest)).
  rewrite Hc. by apply IH.
Qed.

Lemma lstrip_core core rest :
  core ≠ "" → all_chars is_decimal core = true →
  lstrip (core +:+ rest) = core +:+ rest.
Proof.
  destruct core as [|c core]; [done|]. intros _. cbn [all_chars].
  intros [Hc _]%andb_true_iff.
  change (lstrip (String c core +:+ rest))
    with (if is_space c then lstrip (core +:+ rest)
          else String c (core +:+ rest)).
  by rewrite (decimal_not_space c Hc).
Qed.

Lemma rstrip_blanks trail : all_chars is_space trail = true → rstrip trail = "".
Proof.
  induction trail as [|c trail IH]; [done|]. cbn [all_chars].
  intros [Hc Htrail]%andb_true_iff.
  change (rstrip (String c trail))
    with (match rstrip trail with
          | EmptyString => if is_space c then EmptyString else String c EmptyString
          | kept => String c kept
          end).
  by rewrite (IH Htrail), Hc.
Qed.

Lemma rstrip_core core trail :
  core ≠ "" → all_chars is_decimal core = true →
  all_chars is_space trail = true →
  rstrip (core +:+ trail) = core.
Proof.
  induction core as [|c core IH]; [done|]. intros _. cbn [all_chars].
  intros [Hc Hcore]%andb_true_iff Htrail.
  destruct core as [|k core].
  - change (rstrip (String c "" +:+ trail))
      with (match rstrip trail with
            | EmptyString => if is_space c then EmptyString else String c EmptyString
            | kept => String c kept
            end).
    by rewrite (rstrip_blanks _ Htrail), (decimal_not_space c Hc).
  - specialize (IH ltac:(done) Hcore Htrail).
    change (String c (String k core) +:+ trail)
      with (String c (String k core +:+ trail)).
    change (rstrip (String c (String k core +:+ trail)))
      with (match rstrip (String k core +:+ trail) with
            | EmptyString => if is_space c then EmptyString else String c EmptyString
            | kept => String c kept
            end).
    by rewrite IH.
Qed.

(** When what [int] reads is a run of decimal digits, it is the stripped
    text. *)
Lemma int_literal_is_stripped text :
  int_literal text ≠ "" →
  all_chars is_decimal (int_literal text) = true →
  strip text = int_literal text.
Proof.
  unfold int_literal, strip. intros Hne Hdec.
  destruct (lstrip_with_decomp is_int_blank text) as (lead & Htext & Hlead).
  destruct (rstrip_with_decomp is_int_blank (lstrip_with is_int_blank text))
    as (trail & Hrest & Htrail).
  apply (all_chars_impl _ _ _ int_blank_is_space) in Hlead, Htrail.
  rewrite Htext at 1. rewrite lstrip_lead by done.
  rewrite Hrest at 1. rewrite lstrip_core by done.
  by apply rstrip_core.
Qed.

(** The two ways [int] ends on the text of the seed field. *)
Lemma int_of_digits_cases max_str_digits s :
  (int_literal s ≠ ""
   ∧ all_chars is_decimal (int_literal s) = true
   ∧ ¬ (0 < max_str_digits < String.length (int_literal s))%nat
   ∧ ∃ n, 0 ≤ n ∧ digits_value 0 (int_literal s) = Some n
          ∧ int_of_digits max_str_digits s = Ok n)
  ∨ ((int_literal s = ""
      ∨ all_chars is_decimal (int_literal s) = false
      ∨ (0 < max_str_digits < String.length (int_literal s))%nat)
     ∧ int_of_digits max_str_digits s = Raise ValueError).
Proof.
  unfold int_of_digits. cbn zeta.
  destruct (int_literal s) as [|c literal] eqn:HL; [right; by auto|].
  destruct (all_chars is_decimal (String c literal)) eqn:Hdec; [|right; by auto].
  destruct (Nat.ltb_spec 0 max_str_digits) as [H0|H0];
    [destruct (Nat.ltb_spec max_str_digits (String.length (String c literal)))
       as [Hl|Hl]|]; cbn [andb].
  - right. split; [|done]. right. right. lia.
  - destruct (digits_value_decimal _ 0 Hdec) as (n & Hn & Hpos). rewrite Hn.
    left. split; [done|]. split; [done|]. split; [lia|].
    exists n. split; [by apply Hpos|]. done.
  - destruct (digits_value_decimal _ 0 Hdec) as (n & Hn & Hpos). rewrite Hn.
    left. split; [done|]. split; [done|]. split; [lia|].
    exists n. split; [by apply Hpos|]. done.
Qed.

(** Property X17.  When the seed field yields a seed, the field, blanks
    at its ends apart, is a non-empty run of decimal digits, the seed is
    the number they write, and it is not negative. *)
Theorem seed_is_decimal_value (max_str_digits : nat) (seed_text : string) (n : Z) :
  parse_seed max_str_digits seed_text = Ok (Some n) →
  0 ≤ n
  ∧ strip seed_text ≠ ""
  ∧ all_chars is_decimal (strip seed_text) = true
  ∧ digits_value 0 (strip seed_text) = Some n.
Proof.
  unfold parse_seed.
  destruct (isdigit (strip seed_text)) eqn:Hd; [|discriminate].
  destruct (int_of_digits_cases max_str_digits seed_text)
    as [(Hne & Hdec & _ & m & Hpos & Hm & ->) | [_ ->]]; [|discriminate].
  intros [= <-]. rewrite (int_literal_is_stripped seed_text Hne Hdec).
  by repeat split.
Qed.

Lemma seed_is_decimal_value_witness :
  0 ≤ 42
  ∧ strip "  42 " ≠ ""
  ∧ all_chars is_decimal (strip "  42 ") = true
  ∧ digits_value 0 (strip "  42 ") = Some 42.
Proof. apply (seed_is_decimal_value 4300 "  42 " 42). reflexivity. Defined.

(** Property X18.  Reading the seed field raises exactly when the field,
    blanks at its ends apart, is a non-empty run of digit characters that
    [int] does not read: one of them is a superscript digit, or a blank
    that [strip] removes and [int] does not skip stands at an end of the
    field, or the digits are more than the limit on the digits of a
    literal.  The exception is [ValueError]. *)
Theorem seed_text_raises (max_str_digits : nat) (seed_text : string) (e : exn) :
  parse_seed max_str_digits seed_text = Raise e
  ↔ e = ValueError
    ∧ isdigit (strip seed_text) = true
    ∧ (all_chars is_decimal (strip seed_text) = false
       ∨ int_literal seed_text ≠ strip seed_text
       ∨ (0 < max_str_digits < String.length (strip seed_text))%nat).
Proof.
  unfold parse_seed.
  destruct (isdigit (strip seed_text)) eqn:Hd.
  2:{ split; [discriminate|]. by intros (_ & [=] & _). }
  destruct (int_of_digits_cases max_str_digits seed_text)
    as [(Hne & Hdec & Hlim & m & _ & _ & ->) | [Hbad ->]].
  - pose proof (int_literal_is_stripped seed_text Hne Hdec) as Heq.
    split; [discriminate|]. rewrite Heq.
    intros (_ & _ & [Hnd | [Hdiff | Hlong]]); [congruence | done | done].
  - split; [|by intros (-> & _)]. intros [= <-]. split; [done|]. split; [done|].
    destruct (decide (int_literal seed_text = strip seed_text)) as [Heq|Hdiff];
      [|by auto].
    rewrite Heq in Hbad. destruct Hbad as [Hempty | [Hnd | Hlong]]; [|by auto..].
    by apply isdigit_nonempty in Hd.
Qed.

(** * The button and the page *)

Lemma size_option_square (size : string) :
  size ∈ size_options →
  ∃ side, parse_size size = Some (side, side)
          ∧ (side = 512 ∨ side = 768 ∨ side = 1024).
Proof.
  unfold size_options. intros H.
  repeat (apply elem_of_cons in H as [-> | H]);
    [exists 1024 | exists 768 | exists 512 | by apply elem_of_nil in H];
    (split; [reflexivity | auto]).
Qed.

Lemma parse_seed_raises_value_error max_str_digits seed_text e :
  parse_seed max_str_digits seed_text = Raise e → e = ValueError.
Proof.
  unfold parse_seed.
  destruct (isdigit (strip seed_text)); [|discriminate].
  destruct (int_of_digits_cases max_str_digits seed_text)
    as [(_ & _ & _ & m & _ & _ & ->) | [_ ->]]; congruence.
Qed.

Lemma parse_seed_not_negative max_str_digits seed_text n :
  parse_seed max_str_digits seed_text = Ok (Some n) → 0 ≤ n.
Proof.
  unfold parse_seed.
  destruct (isdigit (strip seed_text)); [|discriminate].
  destruct (int_of_digits_cases max_str_digits seed_text)
    as [(_ & _ & _ & m & Hpos & _ & ->) | [_ ->]]; [|discriminate].
  by intros [= <-].
Qed.

(** The fields of the payload, read through its form. *)
Lemma build_payload_lookups prompt negative_prompt steps guidance width height seed :
  let payload :=
    build_payload prompt negative_prompt steps guidance width height seed in
  payload !! "inputs" = Some (JStr prompt)
  ∧ parameters_of payload !! "num_inference_steps" = Some (JInt steps)
  ∧ parameters_of payload !! "width" = Some (JInt width)
  ∧ parameters_of payload !! "height" = Some (JInt height)
  ∧ parameters_of payload !! "seed" = JInt <$> seed.
Proof.
  cbn zeta. rewrite build_payload_form. cbn zeta.
  rewrite parameters_of_initial.
  split; [by rewrite lookup_insert_ne|].
  unfold parameters_of. rewrite lookup_insert_eq.
  case_bool_decide; destruct seed; by simplify_map_eq.
Qed.

Section PageProperties.

Variable py_str : json -> string.
Variable exn_str : exn -> string.
Variable image : Type.
Variable Image_open : bytes -> result image.
Variable save_png : image -> result bytes.
Variable HF_TOKEN : string.

Let click := on_click py_str exn_str image Image_open save_png HF_TOKEN.
Let page := run_page py_str exn_str image Image_open save_png HF_TOKEN.

(** The button block leaves the world as the call left it. *)
Lemma on_click_world user_prompt negative steps guidance w h seed world :
  snd (click user_prompt negative steps guidance w h seed world)
  = snd (call_hf_text2image py_str HF_TOKEN (final_prompt user_prompt)
           negative steps guidance w h seed 4 world).
Proof.
  unfold click, on_click.
  destruct (call_hf_text2image _ _ _ _ _ _ _ _ _ _ _) as [[b|e] world']; [|done].
  destruct (Image_open b) as [img|e]; [|done].
  by destruct (save_png img).
Qed.

Lemma click_invariant user_prompt negative steps guidance w h seed world :
  ∃ added,
    log (snd (click user_prompt negative steps guidance w h seed world))
    = (log world ++ added)%list
    ∧ Forall (event_ok HF_TOKEN
                (build_payload (final_prompt user_prompt) negative steps
                   guidance w h seed)) added
    ∧ (posts added ≤ 4)%nat
    ∧ (sleeps added ≤ posts added)%nat.
Proof.
  rewrite on_click_world.
  destruct (run_invariant _ _ _ _ _ _
              (loop_ends py_str HF_TOKEN
                 (build_payload (final_prompt user_prompt) negative steps
                    guidance w h seed) (Z.to_nat 4) world))
    as (added & Hlog & _ & Hok & Hp & Hsp & _).
  exists added. repeat split; try done.
Qed.

(** Property X19.  One run of the page makes at most four requests and
    sleeps at most 120 seconds in all, whatever the service answers; it
    makes no request and does not sleep when the button was not pressed. *)
Theorem page_run_budget max_str_digits user_prompt negative steps guidance
    size seed_text clicked world :
  ∃ added,
    log (snd (page max_str_digits user_prompt negative steps guidance size
                seed_text clicked world))
    = (log world ++ added)%list
    ∧ (posts added ≤ 4)%nat
    ∧ (sleeps added ≤ posts added)%nat
    ∧ (seconds_slept added <= 120)%Q
    ∧ (clicked = false → added = []).
Proof.
  assert (∃ added : list event,
            log world = (log world ++ added)%list
            ∧ (posts added ≤ 4)%nat ∧ (sleeps added ≤ posts added)%nat
            ∧ (seconds_slept added <= 120)%Q
            ∧ (clicked = false → added = [])) as Hidle.
  { exists []. rewrite app_nil_r. split; [done|]. split; [cbn; lia|].
    split; [cbn; lia|]. split; [discriminate|]. done. }
  unfold page, run_page.
  destruct (parse_size size) as [[w h]|]; [|exact Hidle].
  destruct (parse_seed max_str_digits seed_text) as [seed|e]; [|exact Hidle].
  destruct clicked; [|exact Hidle].
  destruct (click_invariant user_prompt negative steps guidance w h seed world)
    as (added & Hlog & Hok & Hp & Hsp).
  fold click.
  destruct (click user_prompt negative steps guidance w h seed world)
    as [widgets world'] eqn:Hc.
  exists added. cbn [snd] in *. repeat split; try done.
  eapply Qle_trans; [apply (seconds_slept_bound _ _ _ Hok)|].
  change 120%Q with (30 * inject_Z 4)%Q.
  apply Qmult_le_l; [done|]. rewrite <- Zle_Qle. lia.
Qed.

(** Property X20.  Every request one run of the page sends goes to the
    fixed address with a timeout of 180 seconds and asks, for the prompt
    typed followed by the fixed suffix, for the steps chosen and for a
    square image of side 512, 768 or 1024; a seed, when sent, is not
    negative. *)
Theorem page_request_content max_str_digits user_prompt negative steps guidance
    size seed_text clicked world :
  size ∈ size_options →
  ∃ added,
    log (snd (page max_str_digits user_prompt negative steps guidance size
                seed_text clicked world))
    = (log world ++ added)%list
    ∧ ∀ url hdrs body timeout,
        Posted url hdrs body timeout ∈ added →
        url = API_URL
        ∧ hdrs = HEADERS HF_TOKEN
        ∧ timeout = 180
        ∧ body !! "inputs" = Some (JStr (user_prompt ++ ", " ++ MEIJI_BOOST))
        ∧ parameters_of body !! "num_inference_steps" = Some (JInt steps)
        ∧ (∃ side, (side = 512 ∨ side = 768 ∨ side = 1024)
                   ∧ parameters_of body !! "width" = Some (JInt side)
                   ∧ parameters_of body !! "height" = Some (JInt side))
        ∧ (parameters_of body !! "seed" = None
           ∨ ∃ n, 0 ≤ n ∧ parameters_of body !! "seed" = Some (JInt n)).
Proof.
  intros Hsize.
  assert (∃ added : list event,
            log world = (log world ++ added)%list
            ∧ ∀ url hdrs body timeout,
                Posted url hdrs body timeout ∈ added →
                url = API_URL ∧ hdrs = HEADERS HF_TOKEN ∧ timeout = 180
                ∧ body !! "inputs" = Some (JStr (user_prompt ++ ", " ++ MEIJI_BOOST))
                ∧ parameters_of body !! "num_inference_steps" = Some (JInt steps)
                ∧ (∃ side, (side = 512 ∨ side = 768 ∨ side = 1024)
                           ∧ parameters_of body !! "width" = Some (JInt side)
                           ∧ parameters_of body !! "height" = Some (JInt side))
                ∧ (parameters_of body !! "seed" = None
                   ∨ ∃ n, 0 ≤ n ∧ parameters_of body !! "seed" = Some (JInt n)))
    as Hidle.
  { exists []. rewrite app_nil_r. split; [done|].
    intros ???? Hin. by apply elem_of_nil in Hin. }
  destruct (size_option_square size Hsize) as (side & Hparse & Hside).
  unfold page, run_page. rewrite Hparse.
  destruct (parse_seed max_str_digits seed_text) as [seed|e] eqn:Hseed;
    [|exact Hidle].
  destruct clicked; [|exact Hidle].
  destruct (click_invariant user_prompt negative steps guidance side side seed
              world) as (added & Hlog & Hok & _).
  fold click.
  destruct (click user_prompt negative steps guidance side side seed world)
    as [widgets world'] eqn:Hc.
  exists added. cbn [snd] in *. split; [done|].
  intros url hdrs body timeout Hin.
  pose proof (proj1 (Forall_forall _ _) Hok _ Hin) as He.
  cbn in He. unfold post_event in He. injection He as -> -> -> ->.
  destruct (build_payload_lookups (final_prompt user_prompt) negative steps
              guidance side side seed) as (Hin' & Hst & Hw & Hh & Hsd).
  split; [done|]. split; [done|]. split; [done|]. split; [exact Hin'|].
  split; [exact Hst|]. split; [by exists side|].
  rewrite Hsd. destruct seed as [n|]; [right|by left].
  exists n. split; [|done].
  by apply (parse_seed_not_negative max_str_digits seed_text).
Qed.

(** Property X21.  The button block offers a download only after a
    reply with status 200 and an image content type whose body the image
    library opened: the file offered is that image saved as PNG, under the
    name [generated.png], and it comes right after the image shown, with
    no error message. *)
Theorem download_only_of_received_image user_prompt negative steps guidance
    w h seed world label data file_name mime :
  WDownload label data file_name mime
    ∈ fst (click user_prompt negative steps guidance w h seed world) →
  ∃ r img,
    Replies r ∈ script world
    ∧ status_code r = 200
    ∧ String.prefix "image/" (ctype_of r) = true
    ∧ Image_open (content r) = Ok img
    ∧ save_png img = Ok data
    ∧ file_name = "generated.png"
    ∧ mime = "image/png"
    ∧ fst (click user_prompt negative steps guidance w h seed world)
      = [WImage img ("Model: " ++ MODEL_ID);
         WDownload label data file_name mime].
Proof.
  unfold click, on_click.
  pose proof (loop_ends py_str HF_TOKEN
                (build_payload (final_prompt user_prompt) negative steps
                   guidance w h seed) (Z.to_nat 4) world) as Hrun.
  unfold call_hf_text2image.
  destruct (attempts _ _ _ _ _) as [[b|e] world'] eqn:Hcall.
  2:{ cbn. intros Hin. apply list_elem_of_singleton in Hin. discriminate. }
  destruct (run_ok _ _ _ _ _ _ _ Hrun)
    as (rs & r & rest & Hs & _ & _ & Hi & -> & _).
  unfold image_reply in Hi. apply andb_true_iff in Hi as [H200 Himg].
  apply Z.eqb_eq in H200.
  destruct (Image_open (content r)) as [img|e] eqn:Hopen.
  2:{ cbn. intros Hin. apply list_elem_of_singleton in Hin. discriminate. }
  destruct (save_png img) as [png_data|e] eqn:Hsave; cbn; intros Hin.
  - apply elem_of_cons in Hin as [[=]|Hin].
    apply list_elem_of_singleton in Hin. injection Hin as -> -> -> ->.
    exists r, img. repeat split; try done.
    rewrite Hs. apply elem_of_app. right. by left.
  - apply elem_of_cons in Hin as [[=]|Hin].
    apply list_elem_of_singleton in Hin. discriminate.
Qed.

(** Property X22.  With a size taken from the selector, one run of the
    page ends in an uncaught exception only on reading the seed field: the
    exception is [ValueError], and no request was made.  Whatever is
    raised under the button is caught. *)
Theorem page_crashes_only_on_seed max_str_digits user_prompt negative steps
    guidance size seed_text clicked world e world' :
  size ∈ size_options →
  page max_str_digits user_prompt negative steps guidance size seed_text
    clicked world = (Crashed e, world') →
  e = ValueError
  ∧ world' = world
  ∧ parse_seed max_str_digits seed_text = Raise ValueError.
Proof.
  intros Hsize. destruct (size_option_square size Hsize) as (side & Hparse & _).
  unfold page, run_page. rewrite Hparse.
  destruct (parse_seed max_str_digits seed_text) as [seed|e0] eqn:Hseed.
  - destruct clicked; [|discriminate].
    by destruct (on_click _ _ _ _ _ _ _ _ _ _ _ _ _ _).
  - intros [= <- <-].
    by rewrite (parse_seed_raises_value_error _ _ _ Hseed) in *.
Qed.

(** Property X23.  When the service answers the four attempts of a press
    of the button with retried replies, the page shows the
    exhausted-retries message behind the error prefix, and nothing else,
    after four requests and four sleeps. *)
Theorem busy_service_message user_prompt negative steps guidance w h seed
    world rs rest :
  script world = (map Replies rs ++ rest)%list →
  Forall retried rs →
  length rs = 4%nat →
  click user_prompt negative steps guidance w h seed world
  = ([WError (error_prefix ++ exhausted_message)],
     {| script := rest;
        log := (log world
                  ++ retried_log HF_TOKEN
                       (build_payload (final_prompt user_prompt) negative steps
                          guidance w h seed) rs)%list |}).
Proof.
  intros Hs Hrs Hlen. unfold click, on_click.
  rewrite (generate_reaches py_str HF_TOKEN (final_prompt user_prompt) negative
             steps w h guidance seed rs 0 4 world rest Hs Hrs);
    [reflexivity|]. rewrite Hlen. reflexivity.
Qed.

End PageProperties.

(** * The further properties at sample inputs *)

Lemma clamp_value_witness :
  ∃ d q', clamp (JFloat (FFinite (5 # 2))) = Ok d
          ∧ seconds_of d = Some q'
          ∧ (q' == Qmin (Qmax (5 # 2) 3) 30)%Q.
Proof. apply (clamp_value (JFloat (FFinite (5 # 2))) (5 # 2)). reflexivity. Defined.

Lemma warming_up_2_is_retried : retried (warming_up (JInt 2)).
Proof. split; reflexivity. Qed.

Lemma retried_no_body_503 : retried no_body_503.
Proof. split; reflexivity. Qed.

Lemma retried_reply_sleeps_clamped_witness :
  ∃ n d, (0 + S n)%nat = Z.to_nat 3
         ∧ clamp (estimate_of (warming_up (JInt 2))) = Ok d
         ∧ sample_generate 3
             (fresh [Replies (warming_up (JInt 2)); Replies image_png])
           = attempts sample_str "hf_sample"
               (build_payload "brick street" "blurry" 30 (FFinite 7) 1024 1024 None)
               n
               {| script := [Replies image_png];
                  log := [sample_post; Slept d] |}.
Proof.
  apply (retried_reply_sleeps_clamped sample_str "hf_sample" "brick street"
           "blurry" 30 1024 1024 (FFinite 7) None
           [] (warming_up (JInt 2)) 3
           (fresh [Replies (warming_up (JInt 2)); Replies image_png])
           [Replies image_png]).
  - reflexivity.
  - constructor.
  - simpl. lia.
  - exact warming_up_2_is_retried.
Defined.

Lemma retried_replies_exhaust_witness :
  ∃ w', sample_generate 2
          (fresh [Replies (warming_up (JInt 2)); Replies no_body_503])
        = (Raise (RuntimeError exhausted_message), w')
        ∧ script w' = []
        ∧ log w' = [sample_post; Slept (JInt 3); sample_post; Slept (JInt 10)]
        ∧ posts [sample_post; Slept (JInt 3); sample_post; Slept (JInt 10)]
          = 2%nat
        ∧ sleeps [sample_post; Slept (JInt 3); sample_post; Slept (JInt 10)]
          = 2%nat.
Proof.
  apply (retried_replies_exhaust sample_str "hf_sample" "brick street"
           "blurry" 30 1024 1024 (FFinite 7) None
           [warming_up (JInt 2); no_body_503] 2
           (fresh [Replies (warming_up (JInt 2)); Replies no_body_503]) []).
  - reflexivity.
  - repeat constructor.
  - reflexivity.
Defined.

Lemma unreadable_estimate_sleeps_10_witness :
  ∃ n, (0 + S n)%nat = Z.to_nat 3
       ∧ sample_generate 3 (fresh [Replies no_body_503; Replies image_png])
         = attempts sample_str "hf_sample"
             (build_payload "brick street" "blurry" 30 (FFinite 7) 1024 1024 None)
             n
             {| script := [Replies image_png];
                log := [sample_post; Slept (JInt 10)] |}.
Proof.
  apply (unreadable_estimate_sleeps_10 sample_str "hf_sample" "brick street"
           "blurry" 30 1024 1024 (FFinite 7) None
           [] no_body_503 3
           (fresh [Replies no_body_503; Replies image_png])
           [Replies image_png]).
  - reflexivity.
  - constructor.
  - simpl. lia.
  - left. reflexivity.
  - exact I.
Defined.

Lemma nan_estimate_ends_in_value_error_witness :
  sample_generate 3
    (fresh [Replies (warming_up (JFloat FNaN)); Replies image_png])
  = (Raise ValueError,
     {| script := [Replies image_png]; log := [sample_post] |}).
Proof.
  apply (nan_estimate_ends_in_value_error sample_str "hf_sample" "brick street"
           "blurry" 30 1024 1024 (FFinite 7) None
           [] (warming_up (JFloat FNaN)) 3
           (fresh [Replies (warming_up (JFloat FNaN)); Replies image_png])
           [Replies image_png]
           (<["estimated_time" := JFloat FNaN]> ∅)).
  - reflexivity.
  - constructor.
  - simpl. lia.
  - left. reflexivity.
  - reflexivity.
  - reflexivity.
Defined.

Lemma transport_failure_propagates_witness :
  sample_generate 3
    (fresh [Replies no_body_503; Fails ConnectionError; Replies image_png])
  = (Raise ConnectionError,
     {| script := [Replies image_png];
        log := [sample_post; Slept (JInt 10); sample_post] |}).
Proof.
  apply (transport_failure_propagates sample_str "hf_sample" "brick street"
           "blurry" 30 1024 1024 (FFinite 7) None
           [no_body_503] ConnectionError 3
           (fresh [Replies no_body_503; Fails ConnectionError; Replies image_png])
           [Replies image_png]).
  - reflexivity.
  - repeat constructor.
  - simpl. lia.
Defined.

Lemma bytes_only_from_image_witness :
  ∃ rs r rest,
    [Replies no_body_503; Replies image_png; Replies plain_text_200]
    = (map Replies rs ++ Replies r :: rest)%list
    ∧ Forall retried rs
    ∧ Z.of_nat (length rs) < 3
    ∧ status_code r = 200
    ∧ String.prefix "image/" (ctype_of r) = true
    ∧ png = content r
    ∧ {| script := [Replies plain_text_200];
         log := [sample_post; Slept (JInt 10); sample_post] |}
      = {| script := rest;
           log := ([] ++ retried_log "hf_sample"
                           (build_payload "brick street" "blurry" 30 (FFinite 7)
                              1024 1024 None) rs
                      ++ [sample_post])%list |}.
Proof.
  apply (bytes_only_from_image sample_str "hf_sample" "brick street"
           "blurry" 30 1024 1024 (FFinite 7) None 3
           (fresh [Replies no_body_503; Replies image_png; Replies plain_text_200])
           png
           {| script := [Replies plain_text_200];
              log := [sample_post; Slept (JInt 10); sample_post] |}).
  reflexivity.
Defined.

Lemma exhausted_only_after_full_budget_witness :
  ∃ rs,
    [Replies (warming_up (JInt 2)); Replies no_body_503; Replies image_png]
    = (map Replies rs ++ [Replies image_png])%list
    ∧ Forall retried rs
    ∧ length rs = Z.to_nat 2
    ∧ [sample_post; Slept (JInt 3); sample_post; Slept (JInt 10)]
      = ([] ++ retried_log "hf_sample"
                 (build_payload "brick street" "blurry" 30 (FFinite 7)
                    1024 1024 None) rs)%list
    ∧ posts (retried_log "hf_sample"
               (build_payload "brick street" "blurry" 30 (FFinite 7)
                  1024 1024 None) rs) = Z.to_nat 2
    ∧ sleeps (retried_log "hf_sample"
                (build_payload "brick street" "blurry" 30 (FFinite 7)
                   1024 1024 None) rs) = Z.to_nat 2.
Proof.
  apply (exhausted_only_after_full_budget sample_str "hf_sample" "brick street"
           "blurry" 30 1024 1024 (FFinite 7) None 2
           (fresh [Replies (warming_up (JInt 2)); Replies no_body_503;
                   Replies image_png])
           {| script := [Replies image_png];
              log := [sample_post; Slept (JInt 3); sample_post; Slept (JInt 10)] |}).
  - reflexivity.
  - intros msg Hin. cbn in Hin.
    repeat (apply elem_of_cons in Hin as [Hin | Hin]; [discriminate Hin|]).
    by apply elem_of_nil in Hin.
Defined.

Lemma page_request_content_witness :
  ∃ added,
    log (snd (sample_page "768x768" "  42 " true
                (fresh [Replies no_body_503; Replies image_png])))
    = ([] ++ added)%list
    ∧ ∀ url hdrs body timeout,
        Posted url hdrs body timeout ∈ added →
        url = API_URL
        ∧ hdrs = HEADERS "hf_sample"
        ∧ timeout = 180
        ∧ body !! "inputs" = Some (JStr ("brick street" ++ ", " ++ MEIJI_BOOST))
        ∧ parameters_of body !! "num_inference_steps" = Some (JInt 30)
        ∧ (∃ side, (side = 512 ∨ side = 768 ∨ side = 1024)
                   ∧ parameters_of body !! "width" = Some (JInt side)
                   ∧ parameters_of body !! "height" = Some (JInt side))
        ∧ (parameters_of body !! "seed" = None
           ∨ ∃ n, 0 ≤ n ∧ parameters_of body !! "seed" = Some (JInt n)).
Proof.
  apply (page_request_content sample_str sample_exn_str bytes Ok Ok "hf_sample"
           4300 "brick street" "blurry" 30 (FFinite 7) "768x768" "  42 " true
           (fresh [Replies no_body_503; Replies image_png])).
  apply elem_of_cons. right. apply elem_of_cons. left. reflexivity.
Defined.

Lemma download_only_of_received_image_witness :
  ∃ r img,
    Replies r ∈ [Replies no_body_503; Replies image_png]
    ∧ status_code r = 200
    ∧ String.prefix "image/" (ctype_of r) = true
    ∧ Ok (content r) = Ok img
    ∧ Ok img = Ok png
    ∧ "generated.png" = "generated.png"
    ∧ "image/png" = "image/png"
    ∧ fst (sample_click (fresh [Replies no_body_503; Replies image_png]))
      = [WImage img ("Model: " ++ MODEL_ID);
         WDownload download_label png "generated.png" "image/png"].
Proof.
  apply (download_only_of_received_image sample_str sample_exn_str bytes Ok Ok
           "hf_sample" "brick street" "blurry" 30 (FFinite 7) 1024 1024 None
           (fresh [Replies no_body_503; Replies image_png])
           download_label png "generated.png" "image/png").
  apply elem_of_cons. right. apply elem_of_cons. left. reflexivity.
Defined.

Lemma page_crashes_only_on_seed_witness :
  ValueError = ValueError
  ∧ fresh [Replies image_png] = fresh [Replies image_png]
  ∧ parse_seed 4300 separator_five = Raise ValueError.
Proof.
  apply (page_crashes_only_on_seed sample_str sample_exn_str bytes Ok Ok
           "hf_sample" 4300 "brick street" "blurry" 30 (FFinite 7)
           "512x512" separator_five true
           (fresh [Replies image_png]) ValueError (fresh [Replies image_png])).
  - apply elem_of_cons. right. apply elem_of_cons. right.
    apply elem_of_cons. left. reflexivity.
  - reflexivity.
Defined.

Lemma busy_service_message_witness :
  sample_click
    (fresh [Replies (warming_up (JInt 2)); Replies no_body_503;
            Replies (warming_up (JInt 40)); Replies no_body_503;
            Replies image_png])
  = ([WError (error_prefix ++ exhausted_message)],
     {| script := [Replies image_png];
        log := [sample_post_page; Slept (JInt 3); sample_post_page; Slept (JInt 10);
                sample_post_page; Slept (JInt 30); sample_post_page; Slept (JInt 10)] |}).
Proof.
  apply (busy_service_message sample_str sample_exn_str bytes Ok Ok "hf_sample"
           "brick street" "blurry" 30 (FFinite 7) 1024 1024 None
           (fresh [Replies (warming_up (JInt 2)); Replies no_body_503;
                   Replies (warming_up (JInt 40)); Replies no_body_503;
                   Replies image_png])
           [warming_up (JInt 2); no_body_503; warming_up (JInt 40); no_body_503]
           [Replies image_png]).
  - reflexivity.
  - repeat constructor.
  - reflexivity.
Defined.
